(** * OMR processing API: a shallow embedding of [api_server.py]

    The development follows the handlers of the Flask service:
    [allowed_file], [decode_base64_image], [process_omr], [batch_process],
    [validate_answers] and [get_grade].  The libraries the service calls
    (werkzeug, PIL, OpenCV, base64) are the fields of the class [Libs]; the
    OMR model is a record the handlers receive, [None] when it is not
    loaded. *)

From Stdlib Require Import ZArith QArith Qround Qabs Qreduction Lia Lqa Bool.
From Stdlib Require Import Strings.Ascii Strings.String.
From stdpp Require Import gmap strings list fin_maps pretty.

Local Open Scope Z_scope.

(** ** Python values *)

(** The scalar JSON values an answer option can take.  [PNone] is both JSON
    [null] and the default of [dict.get].  A finite float is given by its
    exact value; [json.loads] also accepts [Infinity], [-Infinity] and
    [NaN]. *)
Inductive pyval :=
  | PNone
  | PBool (b : bool)
  | PInt (z : Z)
  | PStr (s : string)
  | PFloat (x : Q)
  | PInf (negative : bool)
  | PNaN.

(** Python's [==] on these values: booleans, integers and floats compare by
    numeric value ([True == 1], [1 == 1.0]), a string only equals a string,
    [None] only equals [None], and [NaN] equals nothing, itself included. *)
Definition py_eq (a b : pyval) : bool :=
  match a, b with
  | PNone, PNone => true
  | PBool x, PBool y => Bool.eqb x y
  | PBool x, PInt y => Z.b2z x =? y
  | PInt x, PBool y => x =? Z.b2z y
  | PInt x, PInt y => x =? y
  | PStr x, PStr y => String.eqb x y
  | PFloat x, PFloat y => Qeq_bool x y
  | PFloat x, PInt y => Qeq_bool x (inject_Z y)
  | PInt x, PFloat y => Qeq_bool (inject_Z x) y
  | PFloat x, PBool y => Qeq_bool x (inject_Z (Z.b2z y))
  | PBool x, PFloat y => Qeq_bool (inject_Z (Z.b2z x)) y
  | PInf x, PInf y => Bool.eqb x y
  | _, _ => false
  end.

(** [type(v).__name__] *)
Definition type_name (v : pyval) : string :=
  match v with
  | PNone => "NoneType"
  | PBool _ => "bool"
  | PInt _ => "int"
  | PStr _ => "str"
  | PFloat _ | PInf _ | PNaN => "float"
  end.

(** Exceptions the modelled code can raise. *)
Inductive exn :=
  | KeyError (k : string)
  | ZeroDivisionError
  | AttributeError (msg : string)
  | FileNotFoundError (path : string)
  | RuntimeError (msg : string)
  | TypeError (msg : string)
  | IndexError (msg : string)
  | ValueError (msg : string).

Inductive result (A : Type) :=
  | Ok (a : A)
  | Raise (e : exn).
Arguments Ok {A} a.
Arguments Raise {A} e.

Definition rbind {A B} (m : result A) (f : A -> result B) : result B :=
  match m with
  | Ok a => f a
  | Raise e => Raise e
  end.

Notation "'let*' x := m 'in' k" := (rbind m (fun x => k))
  (at level 10, x name, m at level 100, k at level 200).

(** ** Insertion-ordered dictionaries

    A Python [dict] parsed from JSON: string keys, iteration in insertion
    order, no key twice. *)
Module PyDict.

Definition t := list (string * pyval).

Fixpoint lookup (d : t) (k : string) : option pyval :=
  match d with
  | [] => None
  | (k', v) :: d' => if String.eqb k' k then Some v else lookup d' k
  end.

(** [d.get(k)] *)
Definition get (d : t) (k : string) : pyval :=
  match lookup d k with
  | Some v => v
  | None => PNone
  end.

(** [d[k]] *)
Definition subscript (d : t) (k : string) : result pyval :=
  match lookup d k with
  | Some v => Ok v
  | None => Raise (KeyError k)
  end.

(** [for k in d] *)
Definition keys (d : t) : list string := map fst d.

End PyDict.

(** ** Python numbers

    An [int] or a finite [float] is represented by its exact rational value.
    Arithmetic that Python performs in binary64 is rounded explicitly by
    [fl64]; comparisons are exact, as they are in Python. *)
Module PyNum.

Definition pow2 (k : Z) : Q :=
  if 0 <=? k then inject_Z (2 ^ k) else 1 # Z.to_pos (2 ^ (- k)).

(** Nearest integer, ties to even. *)
Definition round_half_even (q : Q) : Z :=
  let f := Qfloor q in
  match Qcompare (q - inject_Z f) (1 # 2) with
  | Lt => f
  | Gt => f + 1
  | Eq => if Z.even f then f else f + 1
  end.

(** Round to the nearest binary64 value (53-bit significand, ties to
    even).  The exponent range is not limited: every quantity of the
    service lies between 2^-63 and 100. *)
Definition fl64 (q : Q) : Q :=
  let q := Qred q in
  match Qnum q with
  | Z0 => 0%Q
  | _ =>
    let a := Qabs q in
    let e0 := Z.log2 (Qnum a) - Z.log2 (Zpos (Qden a)) in
    let e := if Qle_bool (pow2 e0) a then e0 else e0 - 1 in
    let ulp := pow2 (e - 52) in
    let m := round_half_even (a / ulp) in
    Qred (inject_Z (Z.sgn (Qnum q) * m) * ulp)
  end.

(** [a / b] on two ints: the correctly rounded quotient. *)
Definition truediv (a b : Z) : result Q :=
  if b =? 0 then Raise ZeroDivisionError
  else Ok (fl64 (inject_Z a / inject_Z b)).

(** [x * n] for a float [x] and an int [n]. *)
Definition mul (x : Q) (n : Z) : Q := fl64 (x * inject_Z n).

(** [round(x, ndigits)] for [ndigits >= 0]: the decimal nearest to the
    exact value of [x] (ties to even), then the float nearest to it. *)
Definition round (x : Q) (ndigits : Z) : Q :=
  let s := inject_Z (10 ^ ndigits) in
  fl64 (inject_Z (round_half_even (x * s)) / s).

(** A float literal with the given decimal value. *)
Definition literal (q : Q) : Q := fl64 q.

End PyNum.

(** ** Scoring engine *)

(** [get_grade(percentage)] *)
Definition get_grade (percentage : Q) : string :=
  if Qle_bool 90 percentage then "A+"
  else if Qle_bool 80 percentage then "A"
  else if Qle_bool 70 percentage then "B"
  else if Qle_bool 60 percentage then "C"
  else if Qle_bool 50 percentage then "D"
  else "F".

(** One entry of the [comparison] list. *)
Record Row := {
  question : string;
  detected : pyval;
  correct : pyval;
  is_correct : bool
}.

(** The JSON body [validate_answers] returns with status 200. *)
Record ScoreReport := {
  score : Z;
  total : Z;
  percentage : Q;
  grade : string;
  comparison : list Row
}.

(** The three locals the loop of [validate_answers] updates. *)
Record Tally := {
  t_comparison : list Row;
  t_correct : Z;
  t_total : Z
}.

(** The body of [for q_num in answer_key]. *)
Definition validate_step (detected_answers answer_key : PyDict.t)
    (st : Tally) (q_num : string) : result Tally :=
  let detected_ans := PyDict.get detected_answers q_num in
  let* correct_ans := PyDict.subscript answer_key q_num in
  let is_correct := py_eq detected_ans correct_ans in
  let correct := if is_correct then t_correct st + 1 else t_correct st in
  Ok {| t_comparison :=
          t_comparison st ++
            [ {| question := q_num; detected := detected_ans;
                 correct := correct_ans; is_correct := is_correct |} ];
        t_correct := correct;
        t_total := t_total st + 1 |}.

Fixpoint for_each {S A} (body : S -> A -> result S) (xs : list A) (st : S)
    : result S :=
  match xs with
  | [] => Ok st
  | x :: xs' => let* st' := body st x in for_each body xs' st'
  end.

(** [(correct / total * 100) if total > 0 else 0] *)
Definition score_percentage (correct total : Z) : result Q :=
  if total >? 0 then
    let* d := PyNum.truediv correct total in
    Ok (PyNum.mul d 100)
  else Ok 0%Q.

(** [validate_answers], from the two request fields to the response body. *)
Definition validate_answers (detected_answers answer_key : PyDict.t)
    : result ScoreReport :=
  let* st := for_each (validate_step detected_answers answer_key)
           (PyDict.keys answer_key)
           {| t_comparison := []; t_correct := 0; t_total := 0 |} in
  let* p := score_percentage (t_correct st) (t_total st) in
  Ok {| score := t_correct st;
        total := t_total st;
        percentage := PyNum.round p 2;
        grade := get_grade p;
        comparison := t_comparison st |}.

(** *** Specification-side definitions for the scoring engine *)

(** The row the loop builds for question [q]. *)
Definition mk_row (detected_answers answer_key : PyDict.t) (q : string) : Row :=
  {| question := q;
     detected := PyDict.get detected_answers q;
     correct := PyDict.get answer_key q;
     is_correct :=
       py_eq (PyDict.get detected_answers q) (PyDict.get answer_key q) |}.

Definition tally_correct (rows : list Row) : Z :=
  Z.of_nat (length (List.filter is_correct rows)).

(** The grade bands as the service description words them: inclusive lower
    bounds, highest band first. *)
Inductive grade_band : Q -> string -> Prop :=
  | band_Aplus p : (90 <= p)%Q -> grade_band p "A+"
  | band_A p : (80 <= p)%Q -> (p < 90)%Q -> grade_band p "A"
  | band_B p : (70 <= p)%Q -> (p < 80)%Q -> grade_band p "B"
  | band_C p : (60 <= p)%Q -> (p < 70)%Q -> grade_band p "C"
  | band_D p : (50 <= p)%Q -> (p < 60)%Q -> grade_band p "D"
  | band_F p : (p < 50)%Q -> grade_band p "F".

(** A key of [n] questions labelled "0", "1", ... that all expect option A;
    used as a detected map it answers the first [n] questions correctly. *)
Definition sheet (n : nat) : PyDict.t :=
  map (fun i : nat => (pretty i, PStr "A")) (seq 0 n).

(** ** Python strings *)
Module PyStr.

(** [s.startswith(p)] *)
Fixpoint starts_with (p s : string) : bool :=
  match p, s with
  | EmptyString, _ => true
  | String a p', String b s' => Ascii.eqb a b && starts_with p' s'
  | String _ _, EmptyString => false
  end.

(** [sep in s] *)
Fixpoint contains (sep s : string) : bool :=
  starts_with sep s ||
  match s with
  | EmptyString => false
  | String _ s' => contains sep s'
  end.

Fixpoint drop (n : nat) (s : string) : string :=
  match n, s with
  | S n', String _ s' => drop n' s'
  | _, _ => s
  end.

(** The text before and after the leftmost occurrence of [sep]. *)
Fixpoint find (sep s : string) : option (string * string) :=
  if starts_with sep s then Some (EmptyString, drop (String.length sep) s)
  else match s with
       | EmptyString => None
       | String c s' =>
           match find sep s' with
           | Some (a, b) => Some (String c a, b)
           | None => None
           end
       end.

Fixpoint split_fuel (fuel : nat) (sep s : string) : list string :=
  match fuel with
  | O => [s]
  | S fuel' =>
      match find sep s with
      | None => [s]
      | Some (a, b) => a :: split_fuel fuel' sep b
      end
  end.

(** [s.split(sep)] for a non-empty [sep]: every match removes at least one
    character, so [length s] rounds are enough. *)
Definition split (sep s : string) : list string :=
  split_fuel (String.length s) sep s.

(** [s.rsplit(c, 1)] for a one-character separator. *)
Fixpoint rsplit1 (c : ascii) (s : string) : list string :=
  match s with
  | EmptyString => [EmptyString]
  | String a s' =>
      match rsplit1 c s' with
      | [x] => if Ascii.eqb a c then [EmptyString; x] else [String a x]
      | x :: rest => String a x :: rest
      | [] => []
      end
  end.

Definition lower_ascii (a : ascii) : ascii :=
  let n := nat_of_ascii a in
  if ((65 <=? n) && (n <=? 90))%nat then ascii_of_nat (n + 32) else a.

(** [s.lower()] on ASCII text. *)
Fixpoint lower (s : string) : string :=
  match s with
  | EmptyString => EmptyString
  | String a s' => String (lower_ascii a) (lower s')
  end.

(** [l[i]] *)
Definition index (l : list string) (i : nat) : result string :=
  match nth_error l i with
  | Some x => Ok x
  | None => Raise (IndexError "list index out of range")
  end.

End PyStr.

(** ** Values exchanged with the recognizer and the client *)

Definition bytes := list Byte.byte.

(** A value inside a result dictionary: a scalar, a nested mapping (the
    [answers], the [metadata]) or a list of scalars. *)
Inductive jval :=
  | JVal (v : pyval)
  | JObj (o : PyDict.t)
  | JArr (a : list pyval).

Definition JStr (s : string) : jval := JVal (PStr s).

(** [len(v)] *)
Definition py_len (v : jval) : result Z :=
  match v with
  | JObj o => Ok (Z.of_nat (length o))
  | JArr a => Ok (Z.of_nat (length a))
  | JVal (PStr s) => Ok (Z.of_nat (String.length s))
  | JVal v =>
      Raise (TypeError
               ("object of type '" +:+ type_name v +:+ "' has no len()"))
  end.

(** [str(e)] *)
Definition exn_str (e : exn) : string :=
  match e with
  | KeyError k => "'" +:+ k +:+ "'"
  | ZeroDivisionError => "division by zero"
  | AttributeError m | FileNotFoundError m | RuntimeError m
  | TypeError m | IndexError m | ValueError m => m
  end.

(** An uploaded file ([werkzeug.FileStorage]). *)
Record FileStorage := {
  filename : string;
  stream : bytes
}.

(** The loaded model: [process_omr] reads the staged image and returns a
    result dictionary or raises. *)
Record OMRProcessor := {
  model_process_omr : bytes -> result (gmap string jval)
}.

(** The library functions the service calls. *)
Class Libs := {
  pil_image : Type;
  ndarray : Type;
  b64decode : string -> result bytes;
  Image_open : bytes -> result pil_image;
  cvtColor_RGB2BGR : pil_image -> result ndarray;
  imencode : ndarray -> bytes;
  secure_filename : string -> string
}.

(** ** Configuration *)

Definition UPLOAD_FOLDER : string := "api_uploads".
Definition ALLOWED_EXTENSIONS : list string :=
  ["png"; "jpg"; "jpeg"; "bmp"; "tiff"].

Definition os_path_join (a b : string) : string := a +:+ "/" +:+ b.

(** [allowed_file(filename)]; the subscript [[1]] is guarded by the [in]
    test. *)
Definition allowed_file (filename : string) : bool :=
  PyStr.contains "." filename &&
  match PyStr.rsplit1 "." filename with
  | [_; ext] => existsb (String.eqb (PyStr.lower ext)) ALLOWED_EXTENSIONS
  | _ => false
  end.

(** ** Image normalizer *)

Definition base64_marker : string := "base64,".

(** The characters of base64 text: letters, digits, [+], [/] and the
    padding [=]. *)
Definition is_base64_char (a : ascii) : bool :=
  let n := nat_of_ascii a in
  ((65 <=? n) && (n <=? 90) || (97 <=? n) && (n <=? 122)
   || (48 <=? n) && (n <=? 57) || (n =? 43) || (n =? 47) || (n =? 61))%nat.

Fixpoint is_base64_text (s : string) : bool :=
  match s with
  | EmptyString => true
  | String a s' => is_base64_char a && is_base64_text s'
  end.

(** [decode_base64_image(base64_string)]: every exception of the body is
    turned into [None]. *)
Definition decode_base64_image `{Libs} (base64_string : string)
    : option ndarray :=
  let body :=
    let* base64_string :=
      if PyStr.contains base64_marker base64_string
      then PyStr.index (PyStr.split base64_marker base64_string) 1
      else Ok base64_string in
    let* img_data := b64decode base64_string in
    let* img := Image_open img_data in
    cvtColor_RGB2BGR img in
  match body with
  | Ok image => Some image
  | Raise _ => None
  end.

(** ** Handlers as state transformers that may raise *)

Definition M (S A : Type) : Type := S -> result A * S.

Definition ret {S A} (a : A) : M S A := fun s => (Ok a, s).

Definition bind {S A B} (m : M S A) (f : A -> M S B) : M S B :=
  fun s =>
    match m s with
    | (Ok a, s') => f a s'
    | (Raise e, s') => (Raise e, s')
    end.

Notation "'let!' x := m 'in' k" := (bind m (fun x => k))
  (at level 10, x name, m at level 100, k at level 200).
Notation "'do!' m 'in' k" := (bind m (fun _ => k))
  (at level 10, m at level 100, k at level 200).

(** [try: body except Exception as e: handler(e)]; what the body changed
    before it raised stays changed. *)
Definition try_except {S A} (body : M S A) (handler : exn -> M S A) : M S A :=
  fun s =>
    match body s with
    | (Ok a, s') => (Ok a, s')
    | (Raise e, s') => handler e s'
    end.

Definition lift_result {S A} (r : result A) : M S A := fun s => (r, s).

Fixpoint for_each_M {S A} (body : A -> M S unit) (xs : list A) : M S unit :=
  match xs with
  | [] => ret tt
  | x :: xs' => do! body x in for_each_M body xs'
  end.

(** The staging area: path to file content. *)
Abbreviation FS := (gmap string bytes).

Definition file_save (file : FileStorage) (path : string) : M FS unit :=
  fun fs => (Ok tt, <[path := stream file]> fs).

Definition cv2_imwrite `{Libs} (path : string) (img : ndarray) : M FS unit :=
  fun fs => (Ok tt, <[path := imencode img]> fs).

Definition os_path_exists (path : string) : M FS bool :=
  fun fs => (Ok (bool_decide (is_Some (fs !! path))), fs).

Definition os_remove (path : string) : M FS unit :=
  fun fs =>
    match fs !! path with
    | Some _ => (Ok tt, delete path fs)
    | None => (Raise (FileNotFoundError path), fs)
    end.

(** [processor.process_omr(filepath, debug=False)] on the module-level
    [processor], which is [None] when the model could not be loaded. *)
Definition call_process_omr (processor : option OMRProcessor)
    (filepath : string) : M FS (gmap string jval) :=
  fun fs =>
    match processor with
    | None =>
        (Raise (AttributeError
                  "'NoneType' object has no attribute 'process_omr'"), fs)
    | Some p =>
        match fs !! filepath with
        | Some image => (model_process_omr p image, fs)
        | None => (Raise (FileNotFoundError filepath), fs)
        end
    end.

(** [if os.path.exists(filepath): os.remove(filepath)] *)
Definition clean_up (filepath : string) : M FS unit :=
  let! present := os_path_exists filepath in
  if present then os_remove filepath else ret tt.

(** ** [/api/process] *)

(** What the request carries: a [file] part, a JSON body with an [image]
    field, or neither. *)
Inductive ProcessRequest :=
  | ReqFile (file : FileStorage)
  | ReqJsonImage (base64_image : string)
  | ReqNoImage.

(** A JSON body with its HTTP status. *)
Definition Response : Type := gmap string jval * Z.

Definition model_not_loaded : Response :=
  (<["error" := JStr "Model not loaded"]>
     {["message" :=
         JStr "OMR processor is not available. Please check server logs."]},
   503).

Definition quoted (s : string) : string :=
  let q := String (ascii_of_nat 34) EmptyString in q +:+ s +:+ q.

Definition no_image_help : string :=
  "Send image as multipart/form-data with " +:+ quoted "file" +:+
  " field or as JSON with " +:+ quoted "image" +:+ " (base64) field".

(** The first half of [process_omr]: either an early response or the staged
    file's name and path. *)
Definition stage_request `{Libs} (req : ProcessRequest)
    : M FS (Response + string * string) :=
  match req with
  | ReqFile file =>
      if String.eqb (filename file) "" then
        ret (inl ({["error" := JStr "No file selected"]}, 400))
      else if negb (allowed_file (filename file)) then
        ret (inl (<["error" := JStr "Invalid file type"]>
                    {["allowed_types" := JArr (map PStr ALLOWED_EXTENSIONS)]},
                  400))
      else
        let filename := secure_filename (filename file) in
        let filepath := os_path_join UPLOAD_FOLDER filename in
        do! file_save file filepath in
        ret (inr (filename, filepath))
  | ReqJsonImage base64_image =>
      match decode_base64_image base64_image with
      | None => ret (inl ({["error" := JStr "Invalid base64 image"]}, 400))
      | Some image_array =>
          let filename := "temp_image.jpg" in
          let filepath := os_path_join UPLOAD_FOLDER filename in
          do! cv2_imwrite filepath image_array in
          ret (inr (filename, filepath))
      end
  | ReqNoImage =>
      ret (inl (<["error" := JStr "No image provided"]>
                  {["help" := JStr no_image_help]}, 400))
  end.

(** The [try] block of [process_omr] and its [except] clause. *)
Definition recognize_staged (processor : option OMRProcessor)
    (filename filepath : string) : M FS Response :=
  try_except
    (let! result := call_process_omr processor filepath in
     do! clean_up filepath in
     match result !! "error" with
     | Some err => ret ({["error" := err]}, 500)
     | None =>
         let! n := lift_result
                     (py_len (default (JObj []) (result !! "answers"))) in
         let result :=
           <["metadata" :=
               JObj [("filename", PStr filename);
                     ("questions_detected", PInt n);
                     ("processing_status", PStr "success")]]> result in
         ret (result, 200)
     end)
    (fun e =>
       do! clean_up filepath in
       ret (<["error" := JStr (exn_str e)]>
              {["processing_status" := JStr "failed"]}, 500)).

Definition process_omr `{Libs} (processor : option OMRProcessor)
    (req : ProcessRequest) : M FS Response :=
  match processor with
  | None => ret model_not_loaded
  | Some _ =>
      let! staged := stage_request req in
      match staged with
      | inl early => ret early
      | inr (filename, filepath) =>
          recognize_staged processor filename filepath
      end
  end.

(** ** [/api/batch] *)

Record BatchReport := {
  b_total : Z;
  b_processed : Z;
  b_failed : Z;
  b_results : list (gmap string jval)
}.

Definition BatchResponse : Type := (gmap string jval + BatchReport) * Z.

(** The staging area together with the local list [results]. *)
Record BatchState := {
  bs_fs : FS;
  bs_results : list (gmap string jval)
}.

Definition lift_fs {A} (m : M FS A) : M BatchState A :=
  fun st =>
    let (r, fs) := m (bs_fs st) in
    (r, {| bs_fs := fs; bs_results := bs_results st |}).

(** [results.append(entry)] *)
Definition results_append (entry : gmap string jval) : M BatchState unit :=
  fun st =>
    (Ok tt, {| bs_fs := bs_fs st; bs_results := bs_results st ++ [entry] |}).

Definition error_entry (name message : string) : gmap string jval :=
  <["filename" := JStr name]>
    (<["status" := JStr "error"]> {["error" := JStr message]}).

(** The body of [for file in files]. *)
Definition batch_item `{Libs} (processor : option OMRProcessor)
    (file : FileStorage) : M BatchState unit :=
  if String.eqb (filename file) "" || negb (allowed_file (filename file)) then
    results_append (error_entry (filename file) "Invalid file")
  else
    try_except
      (let filename := secure_filename (filename file) in
       let filepath := os_path_join UPLOAD_FOLDER filename in
       do! lift_fs (file_save file filepath) in
       let! result := lift_fs (call_process_omr processor filepath) in
       let result := <["filename" := JStr filename]> result in
       let result := <["status" := JStr "success"]> result in
       do! results_append result in
       lift_fs (clean_up filepath))
      (fun e => results_append (error_entry (filename file) (exn_str e))).

(** [r.get('status') == s] *)
Definition has_status (s : string) (r : gmap string jval) : bool :=
  match r !! "status" with
  | Some (JVal v) => py_eq v (PStr s)
  | _ => false
  end.

Definition count_status (s : string) (results : list (gmap string jval))
    : Z :=
  Z.of_nat (length (List.filter (has_status s) results)).

(** [batch_process]; [files] is [None] when the request has no [files[]]
    part. *)
Definition batch_process `{Libs} (processor : option OMRProcessor)
    (files : option (list FileStorage)) : M FS BatchResponse :=
  match files with
  | None => ret (inl {["error" := JStr "No files provided"]}, 400)
  | Some [] => ret (inl {["error" := JStr "No files selected"]}, 400)
  | Some files =>
      fun fs =>
        let (r, st) :=
          for_each_M (batch_item processor) files
            {| bs_fs := fs; bs_results := [] |} in
        match r with
        | Ok _ =>
            let results := bs_results st in
            (Ok (inr {| b_total := Z.of_nat (length files);
                        b_processed := count_status "success" results;
                        b_failed := count_status "error" results;
                        b_results := results |}, 200),
             bs_fs st)
        | Raise e => (Raise e, bs_fs st)
        end
  end.

(** *** Specification-side definitions for the batch *)

(** What the recognizer makes of one admissible upload. *)
Definition item_outcome (processor : option OMRProcessor)
    (file : FileStorage) : result (gmap string jval) :=
  match processor with
  | None =>
      Raise (AttributeError
               "'NoneType' object has no attribute 'process_omr'")
  | Some p => model_process_omr p (stream file)
  end.

Definition inadmissible (file : FileStorage) : bool :=
  String.eqb (filename file) "" || negb (allowed_file (filename file)).

(** The entry [batch_item] appends for one upload. *)
Definition item_entry `{Libs} (processor : option OMRProcessor)
    (file : FileStorage) : gmap string jval :=
  if inadmissible file then error_entry (filename file) "Invalid file"
  else
    match item_outcome processor file with
    | Ok result =>
        <["status" := JStr "success"]>
          (<["filename" := JStr (secure_filename (filename file))]> result)
    | Raise e => error_entry (filename file) (exn_str e)
    end.

(** An item fails when its name is not admissible or recognition raises. *)
Definition item_raises (processor : option OMRProcessor)
    (file : FileStorage) : bool :=
  inadmissible file ||
  match item_outcome processor file with
  | Ok _ => false
  | Raise _ => true
  end.

Definition staged_path `{Libs} (file : FileStorage) : string :=
  os_path_join UPLOAD_FOLDER (secure_filename (filename file)).

(** The staging area after [batch_item] has handled one upload. *)
Definition item_fs `{Libs} (processor : option OMRProcessor)
    (fs : FS) (file : FileStorage) : FS :=
  if inadmissible file then fs
  else
    match item_outcome processor file with
    | Ok _ => delete (staged_path file) fs
    | Raise _ => <[staged_path file := stream file]> fs
    end.

(** Stand-ins for the libraries, to run the handlers on concrete requests:
    images are their own bytes and every decoding step succeeds. *)
Definition plain_libs : Libs := {|
  pil_image := bytes;
  ndarray := bytes;
  b64decode := fun s => Ok (map byte_of_ascii (list_ascii_of_string s));
  Image_open := fun b => Ok b;
  cvtColor_RGB2BGR := fun b => Ok b;
  imencode := fun b => b;
  secure_filename := fun s => s
|}.

(** Requests and recognizers the properties below are run on. *)
Definition sheet_upload : FileStorage :=
  {| filename := "a.png"; stream := [Byte.x89; Byte.x50; Byte.x4e; Byte.x47] |}.

(** A recognizer that reports a domain error in its result dictionary. *)
Definition reporting_recognizer : OMRProcessor :=
  {| model_process_omr := fun _ =>
       Ok {["error" := JStr "No answers detected"]} |}.

(** A recognizer that raises. *)
Definition raising_recognizer : OMRProcessor :=
  {| model_process_omr := fun _ => Raise (RuntimeError "cannot read image") |}.

(** A recognizer that finds one answer. *)
Definition answering_recognizer : OMRProcessor :=
  {| model_process_omr := fun _ =>
       Ok {["answers" := JObj [("1", PStr "A")]]} |}.

(** ** [/api/validate]: the request in front of the scoring *)

(** A field of the request body: an object, an array or a scalar. *)
Inductive jfield :=
  | FObject (d : PyDict.t)
  | FArray (l : list pyval)
  | FScalar (v : pyval).

(** The parsed JSON body [request.json]. *)
Inductive jbody :=
  | BObject (o : list (string * jfield))
  | BArray (l : list jfield)
  | BScalar (v : pyval).

Record ValidateRequest := {
  vr_is_json : bool;
  vr_json : jbody
}.

Fixpoint body_lookup (o : list (string * jfield)) (k : string)
    : option jfield :=
  match o with
  | [] => None
  | (k', f) :: o' => if String.eqb k' k then Some f else body_lookup o' k
  end.

(** [k in data] for a string [k]: a key of an object, an element of an
    array, a substring of a string; other values are not iterable. *)
Definition body_contains (data : jbody) (k : string) : result bool :=
  match data with
  | BObject o =>
      Ok (match body_lookup o k with Some _ => true | None => false end)
  | BArray l =>
      Ok (existsb (fun x => match x with
                            | FScalar (PStr s) => String.eqb s k
                            | _ => false
                            end) l)
  | BScalar (PStr s) => Ok (PyStr.contains k s)
  | BScalar v =>
      Raise (TypeError
               ("argument of type '" +:+ type_name v +:+ "' is not iterable"))
  end.

(** [data[k]] for a string [k] *)
Definition body_subscript (data : jbody) (k : string) : result jfield :=
  match data with
  | BObject o =>
      match body_lookup o k with
      | Some f => Ok f
      | None => Raise (KeyError k)
      end
  | BArray _ =>
      Raise (TypeError "list indices must be integers or slices, not str")
  | BScalar (PStr _) =>
      Raise (TypeError "string indices must be integers, not 'str'")
  | BScalar v =>
      Raise (TypeError
               ("'" +:+ type_name v +:+ "' object is not subscriptable"))
  end.

(** [detected.get(q)]: only an object has [get]; its keys are strings. *)
Definition field_get (detected : jfield) (q : pyval) : result pyval :=
  match detected with
  | FObject d =>
      Ok (match q with PStr s => PyDict.get d s | _ => PNone end)
  | FArray _ => Raise (AttributeError "'list' object has no attribute 'get'")
  | FScalar v =>
      Raise (AttributeError
               ("'" +:+ type_name v +:+ "' object has no attribute 'get'"))
  end.

(** [l[q]] on a list: an integer or boolean index, counted from the end
    when negative. *)
Definition list_subscript (l : list pyval) (q : pyval) : result pyval :=
  let at_index (i : Z) : result pyval :=
    let n := Z.of_nat (length l) in
    let j := if i <? 0 then i + n else i in
    if (0 <=? j) && (j <? n) then
      match nth_error l (Z.to_nat j) with
      | Some v => Ok v
      | None => Raise (IndexError "list index out of range")
      end
    else Raise (IndexError "list index out of range") in
  match q with
  | PInt i => at_index i
  | PBool b => at_index (Z.b2z b)
  | _ =>
      Raise (TypeError
               ("list indices must be integers or slices, not "
                +:+ type_name q))
  end.

(** A comparison row and a report whose questions are the elements of an
    array given as answer key. *)
Record IndexRow := {
  ir_question : pyval;
  ir_detected : pyval;
  ir_correct : pyval;
  ir_is_correct : bool
}.

Record IndexReport := {
  ix_score : Z;
  ix_total : Z;
  ix_percentage : Q;
  ix_grade : string;
  ix_comparison : list IndexRow
}.

Record IndexTally := {
  it_comparison : list IndexRow;
  it_correct : Z;
  it_total : Z
}.

(** The loop body when [answer_key] is an array. *)
Definition index_step (detected : jfield) (answer_key : list pyval)
    (st : IndexTally) (q_num : pyval) : result IndexTally :=
  let* detected_ans := field_get detected q_num in
  let* correct_ans := list_subscript answer_key q_num in
  let is_correct := py_eq detected_ans correct_ans in
  let correct := if is_correct then it_correct st + 1 else it_correct st in
  Ok {| it_comparison :=
          it_comparison st ++
            [ {| ir_question := q_num; ir_detected := detected_ans;
                 ir_correct := correct_ans; ir_is_correct := is_correct |} ];
        it_correct := correct;
        it_total := it_total st + 1 |}.

Definition ScoreBody : Type := ScoreReport + IndexReport.

(** The loop body when [answer_key] is an object: [detected.get] needs an
    object. *)
Definition object_step (detected : jfield) (answer_key : PyDict.t)
    (st : Tally) (q_num : string) : result Tally :=
  let* detected_ans := field_get detected (PStr q_num) in
  let* correct_ans := PyDict.subscript answer_key q_num in
  let is_correct := py_eq detected_ans correct_ans in
  let correct := if is_correct then t_correct st + 1 else t_correct st in
  Ok {| t_comparison :=
          t_comparison st ++
            [ {| question := q_num; detected := detected_ans;
                 correct := correct_ans; is_correct := is_correct |} ];
        t_correct := correct;
        t_total := t_total st + 1 |}.

(** The loop body when [answer_key] is a string: its characters are the
    questions, and [answer_key[q_num]] with a string index raises. *)
Definition string_step (detected : jfield) (st : Tally) (q_num : ascii)
    : result Tally :=
  let* _detected_ans := field_get detected (PStr (String q_num EmptyString)) in
  Raise (TypeError "string indices must be integers, not 'str'").

(** Lines 291-299 on the counters of the loop. *)
Definition report_of (st : Tally) : result ScoreReport :=
  let* p := score_percentage (t_correct st) (t_total st) in
  Ok {| score := t_correct st;
        total := t_total st;
        percentage := PyNum.round p 2;
        grade := get_grade p;
        comparison := t_comparison st |}.

(** Lines 266-299 on two fields of any shape: the key is iterated by key
    when it is an object, by element when it is an array, by character when
    it is a string; other values are not iterable. *)
Definition score_fields (detected answer_key : jfield) : result ScoreBody :=
  let start := {| t_comparison := []; t_correct := 0; t_total := 0 |} in
  match answer_key with
  | FObject key =>
      let* st := for_each (object_step detected key) (PyDict.keys key)
                   start in
      let* report := report_of st in
      Ok (inl report)
  | FArray l =>
      let* st := for_each (index_step detected l) l
                   {| it_comparison := []; it_correct := 0; it_total := 0 |} in
      let* p := score_percentage (it_correct st) (it_total st) in
      Ok (inr {| ix_score := it_correct st;
                 ix_total := it_total st;
                 ix_percentage := PyNum.round p 2;
                 ix_grade := get_grade p;
                 ix_comparison := it_comparison st |})
  | FScalar (PStr s) =>
      let* st := for_each (string_step detected) (list_ascii_of_string s)
                   start in
      let* report := report_of st in
      Ok (inl report)
  | FScalar v =>
      Raise (TypeError ("'" +:+ type_name v +:+ "' object is not iterable"))
  end.

Definition ValidateResponse : Type := (gmap string jval + ScoreBody) * Z.

Definition missing_fields_body : gmap string jval :=
  <["error" := JStr "Missing required fields"]>
    {["required" := JArr [PStr "detected_answers"; PStr "answer_key"]]}.

(** The handler of [/api/validate]; an exception it raises is answered 500
    by the framework. *)
Definition validate_answers_handler (req : ValidateRequest)
    : result ValidateResponse :=
  if negb (vr_is_json req) then
    Ok (inl {["error" := JStr "Request must be JSON"]}, 400)
  else
    let data := vr_json req in
    let* has_detected := body_contains data "detected_answers" in
    let* missing :=
      if negb has_detected then Ok true
      else
        let* has_key := body_contains data "answer_key" in
        Ok (negb has_key) in
    if missing then Ok (inl missing_fields_body, 400)
    else
      let* detected := body_subscript data "detected_answers" in
      let* answer_key := body_subscript data "answer_key" in
      let* body := score_fields detected answer_key in
      Ok (inr body, 200).

(** ** [/api/health] *)

(** [health_check]; [has_model p] tells whether [p.model is not None], and
    a processor object is truthy. *)
Definition health_check (has_model : OMRProcessor -> bool)
    (MODEL_PATH : string) (processor : option OMRProcessor) : Response :=
  let model_loaded :=
    match processor with
    | Some p => has_model p
    | None => false
    end in
  (<["status" := JStr (if model_loaded then "healthy" else "degraded")]>
     (<["model_loaded" := JVal (PBool model_loaded)]>
        (<["service" := JStr "OMR Processing API"]>
           (<["version" := JStr "1.0.0"]>
              {["model_path" := JStr MODEL_PATH]}))),
   200).

(** ** Start-up: loading the model *)

(** The module-level initialisation of [processor]: [None] when the weights
    file is missing or when the constructor [OMRProcessor(MODEL_PATH)]
    raises. *)
Definition load_processor (OMRProcessor_init : bytes -> result OMRProcessor)
    (MODEL_PATH : string) (fs : FS) : option OMRProcessor :=
  match fs !! MODEL_PATH with
  | None => None
  | Some weights =>
      match OMRProcessor_init weights with
      | Ok p => Some p
      | Raise _ => None
      end
  end.

(** ** [download_model.py] *)

(** A streamed HTTP response: the chunks that arrive, then the exception
    that ends the stream early, if any. *)
Record HttpStream := {
  hs_chunks : list bytes;
  hs_error : option exn
}.

(** [requests.get(url, stream=True)] with [raise_for_status] and the
    reading of the [content-length] header. *)
Class Http := {
  requests_get : string -> result HttpStream
}.

Definition raise {S A} (e : exn) : M S A := fun s => (Raise e, s).

(** [open(destination, 'wb')] *)
Definition open_wb (destination : string) : M FS unit :=
  fun fs => (Ok tt, <[destination := []]> fs).

(** [f.write(chunk)] on the file opened at [destination] *)
Definition file_write (destination : string) (chunk : bytes) : M FS unit :=
  fun fs =>
    (Ok tt, <[destination := default [] (fs !! destination) ++ chunk]> fs).

(** [for chunk in response.iter_content(...): if chunk: f.write(chunk)],
    the same in both branches of the progress-bar test. *)
Definition write_chunks (destination : string) (response : HttpStream)
    : M FS unit :=
  do! for_each_M
        (fun chunk : bytes =>
           match chunk with
           | [] => ret tt
           | _ => file_write destination chunk
           end)
        (hs_chunks response) in
  match hs_error response with
  | Some e => raise e
  | None => ret tt
  end.

(** [download_file(url, destination)] *)
Definition download_file `{Http} (url destination : string) : M FS bool :=
  try_except
    (let! response := lift_result (requests_get url) in
     do! open_wb destination in
     do! write_chunks destination response in
     ret true)
    (fun _ =>
       do! clean_up destination in
       ret false).

(** [main()]; the two arguments are the environment variables [MODEL_URL]
    and [MODEL_PATH], [None] when unset.  The result is the exit code. *)
Definition main `{Http} (env_MODEL_URL env_MODEL_PATH : option string)
    : M FS Z :=
  let MODEL_URL := default "" env_MODEL_URL in
  let MODEL_PATH := default "best.pt" env_MODEL_PATH in
  let! present := os_path_exists MODEL_PATH in
  if present then ret 0
  else if String.eqb MODEL_URL "" then ret 1
  else
    let! success := download_file MODEL_URL MODEL_PATH in
    if success then ret 0 else ret 1.

(** *** Specification-side definitions for the added properties *)

(** The position of a grade on the scale F < D < C < B < A < A+. *)
Definition grade_rank (g : string) : Z :=
  if String.eqb g "A+" then 5
  else if String.eqb g "A" then 4
  else if String.eqb g "B" then 3
  else if String.eqb g "C" then 2
  else if String.eqb g "D" then 1
  else 0.

(** No dot in the text. *)
Definition dotless (s : string) : bool := negb (PyStr.contains "." s).

(** The chunks of a stream that are written: the non-empty ones, in order. *)
Definition stream_payload (response : HttpStream) : bytes :=
  concat (hs_chunks response).

(** The path [process_omr] stages a request at. *)
Definition request_path `{Libs} (req : ProcessRequest) : string :=
  match req with
  | ReqFile file => staged_path file
  | _ => os_path_join UPLOAD_FOLDER "temp_image.jpg"
  end.

(** The body of a 500 answer after a raised exception. *)
Definition failed_body (e : exn) : gmap string jval :=
  <["error" := JStr (exn_str e)]> {["processing_status" := JStr "failed"]}.

(** A network on which every request fails, and one that delivers a
    two-chunk body. *)
Definition offline_http : Http :=
  {| requests_get := fun _ => Raise (RuntimeError "connection refused") |}.

Definition serving_http : Http :=
  {| requests_get := fun _ =>
       Ok {| hs_chunks := [[Byte.x50; Byte.x4b]; []; [Byte.x03]];
             hs_error := None |} |}.

(* ================================================================== *)
(** * Properties *)
(* ================================================================== *)

(** The end-to-end example of the service description. *)
Example validate_answers_example :
  validate_answers
    [("1", PStr "A"); ("2", PStr "C")]
    [("1", PStr "A"); ("2", PStr "B"); ("3", PStr "C")]
  = Ok {| score := 1; total := 3; percentage := PyNum.literal (3333 # 100);
          grade := "F";
          comparison :=
            [ {| question := "1"; detected := PStr "A"; correct := PStr "A";
                 is_correct := true |};
              {| question := "2"; detected := PStr "C"; correct := PStr "B";
                 is_correct := false |};
              {| question := "3"; detected := PNone; correct := PStr "C";
                 is_correct := false |} ] |}.
Proof. vm_compute. reflexivity. Qed.

(** ** Dictionaries *)

Lemma lookup_in_keys (d : PyDict.t) (q : string) :
  In q (PyDict.keys d) -> exists v, PyDict.lookup d q = Some v.
Proof.
  induction d as [|[k v] d IH]; simpl; [tauto|].
  intros [->|Hin].
  - rewrite String.eqb_refl. eauto.
  - destruct (String.eqb k q); eauto.
Qed.

Lemma lookup_not_in_keys (d : PyDict.t) (q : string) :
  ~ In q (PyDict.keys d) -> PyDict.lookup d q = None.
Proof.
  induction d as [|[k v] d IH]; simpl; [tauto|].
  intros Hn. destruct (String.eqb_spec k q) as [->|_]; [tauto|].
  apply IH. tauto.
Qed.

Lemma lookup_some_in (d : PyDict.t) (q : string) (v : pyval) :
  PyDict.lookup d q = Some v -> In (q, v) d.
Proof.
  induction d as [|[k w] d IH]; simpl; [discriminate|].
  destruct (String.eqb_spec k q) as [->|_].
  - intros [= ->]. now left.
  - intros H. right. now apply IH.
Qed.

Lemma py_eq_refl (v : pyval) : v <> PNaN -> py_eq v v = true.
Proof.
  intros Hv. destruct v as [|[]|z|s|x|[]|]; simpl;
    auto using Z.eqb_refl, String.eqb_refl, Qeq_bool_refl; congruence.
Qed.

(** ** The scoring loop *)

Lemma validate_step_ok (d key : PyDict.t) (st : Tally) (q : string) :
  In q (PyDict.keys key) ->
  validate_step d key st q =
  Ok {| t_comparison := t_comparison st ++ [mk_row d key q];
        t_correct := t_correct st + tally_correct [mk_row d key q];
        t_total := t_total st + 1 |}.
Proof.
  intros Hin. destruct (lookup_in_keys key q Hin) as [v Hv].
  assert (Hget : PyDict.get key q = v) by (unfold PyDict.get; now rewrite Hv).
  unfold validate_step, PyDict.subscript, mk_row, tally_correct.
  rewrite Hv, Hget. cbn [rbind List.filter is_correct].
  destruct (py_eq (PyDict.get d q) v); simpl; do 2 f_equal; lia.
Qed.

Lemma tally_correct_app (xs ys : list Row) :
  tally_correct (xs ++ ys) = tally_correct xs + tally_correct ys.
Proof.
  unfold tally_correct. rewrite List.filter_app, length_app. lia.
Qed.

Lemma for_each_validate (d key : PyDict.t) (ks : list string) :
  forall st : Tally,
  (forall q, In q ks -> In q (PyDict.keys key)) ->
  for_each (validate_step d key) ks st =
  Ok {| t_comparison := t_comparison st ++ map (mk_row d key) ks;
        t_correct := t_correct st + tally_correct (map (mk_row d key) ks);
        t_total := t_total st + Z.of_nat (length ks) |}.
Proof.
  induction ks as [|q ks IH]; intros st Hsub.
  - simpl. destruct st; simpl. unfold tally_correct; simpl.
    rewrite app_nil_r, !Z.add_0_r. reflexivity.
  - cbn [for_each]. rewrite validate_step_ok by (apply Hsub; now left).
    cbn [rbind]. rewrite IH by (intros; apply Hsub; now right).
    cbn [t_comparison t_correct t_total map length].
    rewrite <- app_assoc. cbn [app].
    replace (tally_correct (mk_row d key q :: map (mk_row d key) ks))
      with (tally_correct [mk_row d key q]
            + tally_correct (map (mk_row d key) ks))
      by (rewrite <- tally_correct_app; reflexivity).
    do 2 f_equal; lia.
Qed.

Lemma score_percentage_ok (c t : Z) : exists p, score_percentage c t = Ok p.
Proof.
  unfold score_percentage, PyNum.truediv.
  destruct (Z.gtb_spec t 0) as [Hgt|_]; [|eauto].
  destruct (Z.eqb_spec t 0); [lia|]. simpl. eauto.
Qed.

(** [validate_answers] in closed form: one row per key entry, in the key's
    order, and the report computed from the two counters. *)
Lemma validate_answers_rows (d key : PyDict.t) :
  validate_answers d key =
  let rows := map (mk_row d key) (PyDict.keys key) in
  let* p := score_percentage (tally_correct rows) (Z.of_nat (length key)) in
  Ok {| score := tally_correct rows;
        total := Z.of_nat (length key);
        percentage := PyNum.round p 2;
        grade := get_grade p;
        comparison := rows |}.
Proof.
  unfold validate_answers. rewrite for_each_validate by auto.
  cbn [rbind t_comparison t_correct t_total app].
  replace (length (PyDict.keys key)) with (length key)
    by (unfold PyDict.keys; now rewrite List.length_map).
  rewrite !Z.add_0_l. reflexivity.
Qed.

Lemma validate_answers_total (d key : PyDict.t) :
  exists r, validate_answers d key = Ok r.
Proof.
  rewrite validate_answers_rows. cbv zeta.
  destruct (score_percentage_ok
              (tally_correct (map (mk_row d key) (PyDict.keys key)))
              (Z.of_nat (length key))) as [p ->].
  cbn [rbind]. eauto.
Qed.

Lemma mk_row_agree (d d' key : PyDict.t) (ks : list string) :
  (forall q, In q ks -> PyDict.lookup d' q = PyDict.lookup d q) ->
  map (mk_row d' key) ks = map (mk_row d key) ks.
Proof.
  intros Hag. apply map_ext_in. intros q Hq.
  unfold mk_row, PyDict.get. now rewrite (Hag q Hq).
Qed.

(** C3 (as amended). For every detected map and answer key the scoring call
    returns a report, never an error; the comparison has one row per key
    entry, in the key's iteration order, and [total] is the number of key
    entries; each row carries the key's value and the verdict of [==];
    a question missing from the detected map gets the detected value [None]
    and is scored as incorrect whenever the key's value is not [None];
    detected entries for questions outside the key change nothing. *)
Theorem validate_answers_covers_key (detected_answers answer_key : PyDict.t) :
  exists r,
    validate_answers detected_answers answer_key = Ok r /\
    map question (comparison r) = PyDict.keys answer_key /\
    total r = Z.of_nat (length answer_key) /\
    score r = tally_correct (comparison r) /\
    Forall (fun row =>
      PyDict.lookup answer_key (question row) = Some (correct row) /\
      is_correct row = py_eq (detected row) (correct row) /\
      (PyDict.lookup detected_answers (question row) = None ->
       detected row = PNone /\
       (correct row <> PNone -> is_correct row = false)))
      (comparison r) /\
    (forall detected' : PyDict.t,
      (forall q, In q (PyDict.keys answer_key) ->
         PyDict.lookup detected' q = PyDict.lookup detected_answers q) ->
      validate_answers detected' answer_key = Ok r).
Proof.
  destruct (validate_answers_total detected_answers answer_key) as [r Hr].
  exists r. split; [exact Hr|].
  pose proof Hr as Hr'. rewrite validate_answers_rows in Hr'. cbv zeta in Hr'.
  destruct (score_percentage _ _) as [p|e] eqn:Hp; cbn [rbind] in Hr';
    [|discriminate].
  injection Hr' as <-. cbn [comparison total score].
  split; [|split; [reflexivity|split; [reflexivity|split]]].
  - rewrite List.map_map. cbn [question mk_row]. apply List.map_id.
  - apply List.Forall_forall. intros row Hin.
    apply List.in_map_iff in Hin as (q & <- & Hq).
    cbn [question correct detected is_correct mk_row].
    destruct (lookup_in_keys answer_key q Hq) as [v Hv].
    unfold PyDict.get. rewrite Hv.
    split; [reflexivity|split; [reflexivity|]].
    intros ->. split; [reflexivity|].
    intros Hv'. destruct v; simpl; congruence.
  - intros d' Hag. rewrite <- Hr, !validate_answers_rows. cbv zeta.
    now rewrite (mk_row_agree detected_answers d' answer_key _ Hag).
Qed.

(** C3 as first stated fails: with the key entry ["1": null] and an empty
    detected map the missing question is scored as correct. *)
Lemma validate_answers_null_key_scored_correct :
  ~ (forall (d key : PyDict.t) (r : ScoreReport) (row : Row),
       validate_answers d key = Ok r ->
       In row (comparison r) ->
       PyDict.lookup d (question row) = None ->
       is_correct row = false).
Proof.
  intros H.
  specialize (H [] [("1", PNone)] _ _ eq_refl (or_introl eq_refl) eq_refl).
  discriminate H.
Qed.

(** ** Grades *)

Lemma Qle_bool_reflect (a b : Q) : reflect (a <= b)%Q (Qle_bool a b).
Proof. apply iff_reflect. symmetry. apply Qle_bool_iff. Qed.

Ltac grade_cases p :=
  unfold get_grade;
  destruct (Qle_bool_reflect 90 p); [|
  destruct (Qle_bool_reflect 80 p); [|
  destruct (Qle_bool_reflect 70 p); [|
  destruct (Qle_bool_reflect 60 p); [|
  destruct (Qle_bool_reflect 50 p)]]]].

(** C4. The grade of a percentage is the band it falls in, with inclusive
    lower bounds 90, 80, 70, 60 and 50 tried from the top, and [F] below 50;
    the eleven boundary percentages get A+, A, A, B, B, C, C, D, D, F, F. *)
Theorem get_grade_bands :
  (forall p g, grade_band p g <-> get_grade p = g) /\
  map get_grade
    (map PyNum.literal
       [90%Q; (8999 # 100)%Q; 80%Q; (7999 # 100)%Q; 70%Q; (6999 # 100)%Q;
        60%Q; (5999 # 100)%Q; 50%Q; (4999 # 100)%Q; 0%Q])
  = ["A+"; "A"; "A"; "B"; "B"; "C"; "C"; "D"; "D"; "F"; "F"].
Proof.
  split; [|vm_compute; reflexivity].
  intros p g. split.
  - intros Hb. destruct Hb; grade_cases p; try reflexivity; exfalso; lra.
  - intros <-. grade_cases p.
    + now apply band_Aplus.
    + apply band_A; lra.
    + apply band_B; lra.
    + apply band_C; lra.
    + apply band_D; lra.
    + apply band_F; lra.
Qed.

(** ** Percentages *)

Lemma fl64_Qeq (q q' : Q) : (q == q')%Q -> PyNum.fl64 q = PyNum.fl64 q'.
Proof. intros E. unfold PyNum.fl64. now rewrite (Qred_complete q q' E). Qed.

Lemma truediv_self (n : Z) : 0 < n -> PyNum.truediv n n = Ok 1%Q.
Proof.
  intros Hn. unfold PyNum.truediv.
  destruct (Z.eqb_spec n 0); [lia|].
  rewrite (fl64_Qeq _ 1%Q); [reflexivity|].
  apply Qmult_inv_r. unfold Qeq; simpl. lia.
Qed.

Lemma tally_all_correct (f : string -> Row) (ks : list string) :
  (forall q, In q ks -> is_correct (f q) = true) ->
  tally_correct (map f ks) = Z.of_nat (length ks).
Proof.
  intros Hall. unfold tally_correct. f_equal.
  induction ks as [|q ks IH]; [reflexivity|].
  cbn [map List.filter]. rewrite Hall by now left.
  cbn [length]. f_equal. apply IH. intros; apply Hall; now right.
Qed.

Lemma tally_none_correct (f : string -> Row) (ks : list string) :
  (forall q, In q ks -> is_correct (f q) = false) ->
  tally_correct (map f ks) = 0.
Proof.
  intros Hall. unfold tally_correct.
  induction ks as [|q ks IH]; [reflexivity|].
  cbn [map List.filter]. rewrite Hall by now left.
  apply IH. intros; apply Hall; now right.
Qed.

(** C5. The scoring call never faults; when [total > 0] the reported
    percentage is [round(score / total * 100, 2)], when [total == 0] it is 0;
    two empty maps give [total == 0] and [percentage == 0]. *)
Theorem validate_answers_percentage (detected_answers answer_key : PyDict.t) :
  (exists r,
     validate_answers detected_answers answer_key = Ok r /\
     (0 < total r ->
      exists d, PyNum.truediv (score r) (total r) = Ok d /\
                percentage r = PyNum.round (PyNum.mul d 100) 2) /\
     (total r = 0 -> percentage r = 0%Q)) /\
  validate_answers [] [] =
    Ok {| score := 0; total := 0; percentage := 0%Q; grade := "F";
          comparison := [] |}.
Proof.
  split; [|vm_compute; reflexivity].
  rewrite validate_answers_rows. cbv zeta.
  set (c := tally_correct _). set (t := Z.of_nat _).
  unfold score_percentage.
  destruct (Z.gtb_spec t 0) as [Hgt|Hle].
  - unfold PyNum.truediv at 1. destruct (Z.eqb_spec t 0) as [|Hne]; [lia|].
    cbn [rbind]. eexists. split; [reflexivity|].
    cbn [total score percentage]. split; [|lia].
    intros _. unfold PyNum.truediv.
    destruct (Z.eqb_spec t 0); [lia|]. eauto.
  - cbn [rbind]. eexists. split; [reflexivity|].
    cbn [total score percentage]. split; [lia|].
    intros _. vm_compute. reflexivity.
Qed.

(** C6 (amended). Scoring a non-empty key none of whose values is NaN
    against itself yields the percentage 100.0 and the grade A+ (every
    question is counted correct). *)
Theorem validate_answers_key_against_itself (answer_key : PyDict.t) :
  answer_key <> [] ->
  Forall (fun entry => snd entry <> PNaN) answer_key ->
  exists r,
    validate_answers answer_key answer_key = Ok r /\
    percentage r = 100%Q /\
    grade r = "A+" /\
    score r = total r.
Proof.
  intros Hne Hnan. rewrite validate_answers_rows. cbv zeta.
  rewrite tally_all_correct.
  2:{ intros q Hq. cbn [is_correct mk_row]. apply py_eq_refl.
      destruct (lookup_in_keys answer_key q Hq) as [v Hv].
      unfold PyDict.get. rewrite Hv. apply lookup_some_in in Hv.
      rewrite List.Forall_forall in Hnan. exact (Hnan (q, v) Hv). }
  replace (length (PyDict.keys answer_key)) with (length answer_key)
    by (unfold PyDict.keys; now rewrite List.length_map).
  assert (Hpos : 0 < Z.of_nat (length answer_key))
    by (destruct answer_key; [congruence|simpl; lia]).
  unfold score_percentage.
  destruct (Z.gtb_spec (Z.of_nat (length answer_key)) 0); [|lia].
  rewrite truediv_self by assumption. cbn [rbind].
  eexists. split; [reflexivity|].
  cbn [percentage grade score total].
  repeat split; vm_compute; reflexivity.
Qed.

Lemma validate_answers_key_against_itself_witness :
  exists r,
    validate_answers [("1", PStr "A")] [("1", PStr "A")] = Ok r /\
    percentage r = 100%Q /\ grade r = "A+" /\ score r = total r.
Proof.
  apply (validate_answers_key_against_itself [("1", PStr "A")]).
  - discriminate.
  - apply List.Forall_cons; [discriminate|apply List.Forall_nil].
Defined.

(** C6 as first stated fails: the key ["1": NaN] scored against itself
    gives the percentage 0 and the grade F, because NaN is not equal to
    itself. *)
Lemma validate_answers_nan_key_against_itself :
  ~ (forall answer_key : PyDict.t,
       answer_key <> [] ->
       exists r,
         validate_answers answer_key answer_key = Ok r /\
         percentage r = 100%Q /\ grade r = "A+").
Proof.
  intros H.
  destruct (H [("1", PNaN)] ltac:(discriminate)) as (r & Hr & _ & Hg).
  vm_compute in Hr. injection Hr as <-. discriminate Hg.
Qed.

(** ** A sheet answered up to a given question *)

Lemma keys_sheet (n : nat) :
  PyDict.keys (sheet n) = map (fun i : nat => pretty i) (seq 0 n).
Proof. unfold PyDict.keys, sheet. now rewrite List.map_map. Qed.

Lemma get_sheet (n i : nat) :
  PyDict.get (sheet n) (pretty i) =
  if (i <? n)%nat then PStr "A" else PNone.
Proof.
  unfold PyDict.get. destruct (Nat.ltb_spec i n) as [Hlt|Hge].
  - destruct (lookup_in_keys (sheet n) (pretty i)) as [v Hv].
    { rewrite keys_sheet. apply List.in_map_iff. exists i.
      split; [reflexivity|]. apply List.in_seq. lia. }
    rewrite Hv. apply lookup_some_in in Hv.
    apply List.in_map_iff in Hv as (j & [= _ <-] & _). reflexivity.
  - rewrite lookup_not_in_keys; [reflexivity|].
    rewrite keys_sheet. intros Hin.
    apply List.in_map_iff in Hin as (j & Hj & Hin).
    apply (inj pretty) in Hj. subst j.
    apply List.in_seq in Hin. lia.
Qed.

Lemma tally_sheet (c t : nat) :
  (c <= t)%nat ->
  tally_correct (map (mk_row (sheet c) (sheet t)) (PyDict.keys (sheet t)))
  = Z.of_nat c.
Proof.
  intros Hle. rewrite keys_sheet.
  replace t with (c + (t - c))%nat at 2 by lia.
  rewrite List.seq_app, List.map_app, List.map_app, tally_correct_app.
  rewrite tally_all_correct, tally_none_correct.
  - rewrite List.length_map, List.length_seq. lia.
  - intros q Hq. apply List.in_map_iff in Hq as (i & <- & Hi).
    apply List.in_seq in Hi. cbn [is_correct mk_row]. rewrite !get_sheet.
    destruct (Nat.ltb_spec i c); [lia|].
    destruct (Nat.ltb_spec i t); [reflexivity|lia].
  - intros q Hq. apply List.in_map_iff in Hq as (i & <- & Hi).
    apply List.in_seq in Hi. cbn [is_correct mk_row]. rewrite !get_sheet.
    destruct (Nat.ltb_spec i c); [|lia].
    destruct (Nat.ltb_spec i t); [reflexivity|lia].
Qed.

(** C10. The grade is taken from the unrounded value
    [correct / total * 100], the percentage field is that value rounded to
    two decimals; with 89996 correct answers out of 100000 the report shows
    the percentage 90.0, whose own grade would be A+, next to the grade A. *)
Theorem grade_taken_from_unrounded_percentage :
  (forall detected_answers answer_key : PyDict.t,
     exists r p,
       validate_answers detected_answers answer_key = Ok r /\
       score_percentage (score r) (total r) = Ok p /\
       grade r = get_grade p /\
       percentage r = PyNum.round p 2) /\
  (exists r,
     validate_answers (sheet (Z.to_nat 89996)) (sheet (Z.to_nat 100000))
       = Ok r /\
     score r = 89996 /\
     total r = 100000 /\
     percentage r = 90%Q /\
     grade r = "A" /\
     get_grade (percentage r) = "A+").
Proof.
  split.
  - intros d key. rewrite validate_answers_rows. cbv zeta.
    destruct (score_percentage_ok
                (tally_correct (map (mk_row d key) (PyDict.keys key)))
                (Z.of_nat (length key))) as [p Hp].
    rewrite Hp. cbn [rbind]. eexists. exists p.
    cbn [score total grade percentage]. auto.
  - rewrite validate_answers_rows. cbv zeta.
    rewrite tally_sheet by lia.
    replace (length (sheet (Z.to_nat 100000))) with (Z.to_nat 100000)
      by (unfold sheet; now rewrite List.length_map, List.length_seq).
    rewrite !Z2Nat.id by lia.
    assert (Hp : score_percentage 89996 100000
                 = Ok (6332905501013049 # 70368744177664)%Q)
      by (vm_compute; reflexivity).
    rewrite Hp. cbn [rbind]. eexists. split; [reflexivity|].
    cbn [score total grade percentage].
    repeat split; vm_compute; reflexivity.
Qed.

(** ** Strings *)

Lemma find_cons (sep : string) (c : ascii) (s : string) :
  PyStr.find sep (String c s) =
  if PyStr.starts_with sep (String c s)
  then Some (EmptyString, PyStr.drop (String.length sep) (String c s))
  else match PyStr.find sep s with
       | Some (a, b) => Some (String c a, b)
       | None => None
       end.
Proof. reflexivity. Qed.

Lemma contains_cons (sep : string) (c : ascii) (s : string) :
  PyStr.contains sep (String c s) =
  PyStr.starts_with sep (String c s) || PyStr.contains sep s.
Proof. reflexivity. Qed.

Lemma find_none (sep s : string) :
  PyStr.contains sep s = false -> PyStr.find sep s = None.
Proof.
  induction s as [|c s IH].
  - simpl. rewrite orb_false_r. now intros ->.
  - rewrite contains_cons, find_cons.
    intros [-> Hs]%orb_false_elim. now rewrite IH.
Qed.

Lemma find_some_contains (sep s a b : string) :
  PyStr.find sep s = Some (a, b) -> PyStr.contains sep s = true.
Proof.
  destruct (PyStr.contains sep s) eqn:E; [reflexivity|].
  now rewrite (find_none _ _ E).
Qed.

Lemma drop_length (n : nat) (s : string) :
  (String.length (PyStr.drop n s) <= String.length s)%nat.
Proof.
  revert s. induction n as [|n IH]; intros [|c s]; simpl; try lia.
  specialize (IH s). lia.
Qed.

Lemma starts_with_drop (p s : string) :
  PyStr.starts_with p s = true ->
  (String.length (PyStr.drop (String.length p) s) + String.length p
   = String.length s)%nat.
Proof.
  revert s. induction p as [|a p IH]; intros [|b s]; simpl;
    try discriminate; try lia.
  intros [_ Hp]%andb_prop. specialize (IH s Hp). lia.
Qed.

Lemma find_length (sep s a b : string) :
  PyStr.find sep s = Some (a, b) ->
  (String.length a + String.length sep + String.length b
   = String.length s)%nat.
Proof.
  revert a b. induction s as [|c s IH]; intros a b.
  - simpl. destruct (PyStr.starts_with sep "") eqn:E; [|discriminate].
    intros [= <- <-]. pose proof (starts_with_drop _ _ E). simpl in *. lia.
  - rewrite find_cons. destruct (PyStr.starts_with sep (String c s)) eqn:E.
    + intros [= <- <-]. pose proof (starts_with_drop _ _ E). simpl in *. lia.
    + destruct (PyStr.find sep s) as [[a' b']|]; [|discriminate].
      intros [= <- <-]. specialize (IH _ _ eq_refl). simpl. lia.
Qed.

(** The fuel of [split] never runs out: more fuel gives the same list. *)
Lemma split_fuel_enough (sep : string) :
  sep <> EmptyString ->
  forall (n : nat) (s : string),
  (String.length s <= n)%nat ->
  PyStr.split_fuel n sep s = PyStr.split sep s.
Proof.
  intros Hsep. unfold PyStr.split.
  assert (Hlen : (0 < String.length sep)%nat)
    by (destruct sep; [congruence|simpl; lia]).
  assert (Hmono : forall n m s, (String.length s <= n)%nat ->
            (String.length s <= m)%nat ->
            PyStr.split_fuel n sep s = PyStr.split_fuel m sep s).
  { induction n as [|n IH]; intros m s Hn Hm.
    - destruct s; [|simpl in Hn; lia].
      destruct m; simpl; [reflexivity|].
      destruct (PyStr.starts_with sep "") eqn:E; [|reflexivity].
      destruct sep; [congruence|discriminate].
    - destruct m as [|m].
      + destruct s; [|simpl in Hm; lia]. simpl.
        destruct (PyStr.starts_with sep "") eqn:E; [|reflexivity].
        destruct sep; [congruence|discriminate].
      + simpl. destruct (PyStr.find sep s) as [[a b]|] eqn:E; [|reflexivity].
        apply find_length in E. f_equal. apply IH; lia. }
  intros n s Hn. apply Hmono; lia.
Qed.

Lemma append_cons (c : ascii) (s t : string) :
  String c s +:+ t = String c (s +:+ t).
Proof. reflexivity. Qed.

Lemma append_nil (t : string) : EmptyString +:+ t = t.
Proof. reflexivity. Qed.

Ltac split_eqb :=
  repeat match goal with
         | H : context [Ascii.eqb ?a ?c] |- _ =>
             is_var c; destruct (Ascii.eqb a c)
         | |- context [Ascii.eqb ?a ?c] =>
             is_var c; destruct (Ascii.eqb a c)
         end.

(** No occurrence of the marker starts in front of the marker and runs into
    it: its comma is the marker's only one. *)
Lemma marker_not_across (pre rest : string) :
  pre <> EmptyString ->
  PyStr.starts_with base64_marker pre = false ->
  PyStr.starts_with base64_marker (pre +:+ base64_marker +:+ rest) = false.
Proof.
  intros Hne Hpre. unfold base64_marker in *.
  destruct pre as [|c1 [|c2 [|c3 [|c4 [|c5 [|c6 [|c7 pre]]]]]]];
    [congruence|..]; rewrite ?append_cons, ?append_nil;
    cbn [PyStr.starts_with] in *;
    split_eqb; cbn in *; solve [reflexivity | discriminate | assumption].
Qed.

Lemma find_marker (pre rest : string) :
  PyStr.contains base64_marker pre = false ->
  PyStr.find base64_marker (pre +:+ base64_marker +:+ rest)
  = Some (pre, rest).
Proof.
  induction pre as [|c pre IH].
  - intros _. reflexivity.
  - rewrite contains_cons. intros [Hs Hc]%orb_false_elim.
    rewrite append_cons, find_cons, <- append_cons.
    rewrite marker_not_across by (assumption || discriminate).
    now rewrite IH.
Qed.

Lemma split_marker (pre rest : string) :
  PyStr.contains base64_marker pre = false ->
  PyStr.contains base64_marker rest = false ->
  PyStr.split base64_marker (pre +:+ base64_marker +:+ rest) = [pre; rest].
Proof.
  intros Hpre Hrest.
  rewrite <- (split_fuel_enough base64_marker ltac:(discriminate)
                (2 + String.length (pre +:+ base64_marker +:+ rest))%nat)
    by lia.
  cbn [Nat.add PyStr.split_fuel].
  rewrite find_marker by assumption.
  destruct (String.length _); cbn [PyStr.split_fuel];
    now rewrite ?find_none by assumption.
Qed.

(** ** Image normalizer *)

Example split_data_url :
  PyStr.split "base64," "data:image/png;base64,AAAA" = ["data:image/png;"; "AAAA"].
Proof. reflexivity. Qed.

Example split_twice :
  PyStr.split "," "a,b,,c" = ["a"; "b"; ""; "c"].
Proof. reflexivity. Qed.

Example allowed_file_examples :
  map allowed_file ["sheet.png"; "SHEET.JPG"; "a.b.tiff"; ".bmp"; "sheet.gif";
                    "png"; "sheet."; ""]
  = [true; true; true; true; false; false; false; false].
Proof. reflexivity. Qed.

(** Base64 text holds no comma, hence no marker. *)
Lemma base64_text_not_at_marker (s : string) :
  is_base64_text s = true -> PyStr.starts_with base64_marker s = false.
Proof.
  unfold base64_marker.
  destruct s as [|c1 [|c2 [|c3 [|c4 [|c5 [|c6 [|c7 s]]]]]]];
    cbn [PyStr.starts_with]; rewrite ?andb_false_r; try reflexivity.
  destruct (Ascii.eqb_spec "," c7) as [<-|_];
    [|cbn [andb]; now rewrite ?andb_false_r].
  cbn [is_base64_text]. intros Hb.
  do 6 apply andb_prop in Hb as [_ Hb].
  apply andb_prop in Hb as [Hb _]. discriminate Hb.
Qed.

Lemma base64_text_no_marker (s : string) :
  is_base64_text s = true -> PyStr.contains base64_marker s = false.
Proof.
  induction s as [|a s IH]; [reflexivity|].
  intros Hb. rewrite contains_cons, (base64_text_not_at_marker _ Hb).
  apply andb_prop in Hb as [_ Hb]. now apply IH.
Qed.

(** C9. A payload prefixed with a data-URL header ending in the marker
    [base64,] is normalized to the same image as the bare payload; the
    header holds the marker nowhere else (in a data URL its first comma ends
    it) and the payload, being base64 text, holds no comma at all. *)
Theorem decode_base64_image_data_url `{Libs} (header payload : string) :
  PyStr.contains base64_marker header = false ->
  PyStr.contains base64_marker payload = false ->
  decode_base64_image (header +:+ base64_marker +:+ payload)
  = decode_base64_image payload.
Proof.
  intros Hh Hp. unfold decode_base64_image.
  rewrite (find_some_contains _ _ _ _ (find_marker header payload Hh)).
  rewrite split_marker by assumption. rewrite Hp. reflexivity.
Qed.

Lemma decode_base64_image_data_url_witness :
  @decode_base64_image plain_libs
    ("data:image/png;" +:+ base64_marker +:+ "iVBORw0KGgo=")
  = @decode_base64_image plain_libs "iVBORw0KGgo=".
Proof.
  apply (@decode_base64_image_data_url plain_libs); reflexivity.
Defined.

(** ** The staging area *)

Lemma clean_up_ok (filepath : string) (fs : FS) :
  clean_up filepath fs = (Ok tt, delete filepath fs).
Proof.
  unfold clean_up, bind, os_path_exists, os_remove, ret.
  destruct (fs !! filepath) as [c|] eqn:E.
  - rewrite bool_decide_true by eauto. now rewrite E.
  - rewrite bool_decide_false by (intros [? ?]; congruence).
    now rewrite delete_id.
Qed.

(** ** One item of a batch *)

Section Batch.
Context `{Libs}.
Variable processor : option OMRProcessor.

Lemma batch_item_spec (file : FileStorage) (st : BatchState) :
  batch_item processor file st =
  (Ok tt,
   {| bs_fs := item_fs processor (bs_fs st) file;
      bs_results := bs_results st ++ [item_entry processor file] |}).
Proof.
  unfold batch_item, item_fs, item_entry. fold (inadmissible file).
  destruct (inadmissible file); [reflexivity|].
  unfold try_except, bind, lift_fs, file_save, call_process_omr,
    results_append, item_outcome, staged_path.
  cbn [bs_fs bs_results].
  destruct processor as [p|]; [|reflexivity].
  rewrite lookup_insert_eq.
  destruct (model_process_omr p (stream file)) as [d|e]; [|reflexivity].
  cbn [bs_fs bs_results]. rewrite clean_up_ok.
  now rewrite delete_insert_eq.
Qed.

Lemma for_each_batch (files : list FileStorage) :
  forall st : BatchState,
  for_each_M (batch_item processor) files st =
  (Ok tt,
   {| bs_fs := fold_left (item_fs processor) files (bs_fs st);
      bs_results := bs_results st ++ map (item_entry processor) files |}).
Proof.
  induction files as [|file files IH]; intros st.
  - cbn. rewrite app_nil_r. now destruct st.
  - cbn [for_each_M]. unfold bind at 1. rewrite batch_item_spec, IH.
    cbn [bs_fs bs_results fold_left map]. now rewrite <- app_assoc.
Qed.

Lemma batch_process_some (files : list FileStorage) (fs : FS) :
  files <> [] ->
  batch_process processor (Some files) fs =
  (Ok (inr {| b_total := Z.of_nat (length files);
              b_processed :=
                count_status "success" (map (item_entry processor) files);
              b_failed :=
                count_status "error" (map (item_entry processor) files);
              b_results := map (item_entry processor) files |}, 200),
   fold_left (item_fs processor) files fs).
Proof.
  intros Hne. destruct files as [|f files]; [congruence|].
  unfold batch_process. now rewrite for_each_batch.
Qed.

Lemma has_status_error_entry (s name message : string) :
  has_status s (error_entry name message) = String.eqb "error" s.
Proof.
  unfold has_status, error_entry.
  rewrite lookup_insert_ne by discriminate.
  now rewrite lookup_insert_eq.
Qed.

Lemma has_status_item (s : string) (file : FileStorage) :
  has_status s (item_entry processor file) =
  String.eqb (if item_raises processor file then "error" else "success") s.
Proof.
  unfold item_entry, item_raises.
  destruct (inadmissible file); cbn [orb];
    [apply has_status_error_entry|].
  destruct (item_outcome processor file);
    [|apply has_status_error_entry].
  unfold has_status. now rewrite lookup_insert_eq.
Qed.

Lemma filename_item (file : FileStorage) :
  item_entry processor file !! "filename" =
  Some (JStr (if item_raises processor file then filename file
              else secure_filename (filename file))).
Proof.
  unfold item_entry, item_raises, error_entry.
  destruct (inadmissible file); cbn [orb];
    [now rewrite lookup_insert_eq|].
  destruct (item_outcome processor file);
    [|now rewrite lookup_insert_eq].
  rewrite lookup_insert_ne by discriminate.
  now rewrite lookup_insert_eq.
Qed.

Lemma count_status_items (files : list FileStorage) :
  count_status "success" (map (item_entry processor) files)
  + count_status "error" (map (item_entry processor) files)
  = Z.of_nat (length files).
Proof.
  unfold count_status.
  induction files as [|file files IH]; [reflexivity|].
  cbn [map List.filter]. rewrite !has_status_item.
  destruct (item_raises processor file); cbn in *; lia.
Qed.

End Batch.

(** ** The batch report *)

Lemma Forall2_map_r {A B} (P : A -> B -> Prop) (g : A -> B) (l : list A) :
  (forall a, P a (g a)) -> Forall2 P l (map g l).
Proof. intros HP. induction l; constructor; auto. Qed.

(** C2. A batch of N >= 1 uploads is answered by a report with N results,
    one per upload and in upload order (a success entry carries the
    sanitized name of its upload, an error entry the declared name);
    the counters are taken from the results, every result is tagged either
    success or error, and [processed + failed = total = N]. *)
Theorem batch_process_report `{Libs} (processor : option OMRProcessor)
    (files : list FileStorage) (fs : FS) :
  files <> [] ->
  exists report fs',
    batch_process processor (Some files) fs = (Ok (inr report, 200), fs') /\
    b_total report = Z.of_nat (length files) /\
    length (b_results report) = length files /\
    b_processed report + b_failed report = b_total report /\
    b_processed report = count_status "success" (b_results report) /\
    b_failed report = count_status "error" (b_results report) /\
    Forall2 (fun file r =>
       (has_status "success" r = true /\ has_status "error" r = false /\
        r !! "filename" = Some (JStr (secure_filename (filename file)))) \/
       (has_status "error" r = true /\ has_status "success" r = false /\
        r !! "filename" = Some (JStr (filename file))))
      files (b_results report).
Proof.
  intros Hne. eexists. eexists.
  split; [apply batch_process_some; assumption|].
  cbn [b_total b_results b_processed b_failed].
  split; [reflexivity|]. split; [apply List.length_map|].
  split; [apply count_status_items|]. split; [reflexivity|].
  split; [reflexivity|].
  apply Forall2_map_r. intros file.
  rewrite !has_status_item, filename_item.
  destruct (item_raises processor file); [right|left]; auto.
Qed.

Lemma batch_process_report_witness :
  exists report fs',
    @batch_process plain_libs (Some answering_recognizer)
      (Some [sheet_upload]) ∅ = (Ok (inr report, 200), fs') /\
    b_total report = 1 /\
    length (b_results report) = 1%nat /\
    b_processed report + b_failed report = b_total report.
Proof.
  destruct (@batch_process_report plain_libs (Some answering_recognizer)
              [sheet_upload] ∅ ltac:(discriminate))
    as (report & fs' & Hrun & Htotal & Hlen & Hsum & _).
  exists report, fs'. auto.
Defined.

(** Every entry of the report is decided by its own upload: it is tagged
    error exactly when that upload is inadmissible or its recognition
    raises, whatever happens to the other uploads. *)
Lemma batch_isolates_raised_faults `{Libs} (processor : option OMRProcessor)
    (files : list FileStorage) (fs : FS) (i : nat) (file : FileStorage) :
  files !! i = Some file ->
  exists report fs' r,
    batch_process processor (Some files) fs = (Ok (inr report, 200), fs') /\
    b_results report !! i = Some r /\
    has_status "error" r = item_raises processor file /\
    has_status "success" r = negb (item_raises processor file).
Proof.
  intros Hi.
  assert (Hne : files <> []) by (intros ->; discriminate).
  eexists _, _, (item_entry processor file).
  split; [apply batch_process_some; assumption|].
  cbn [b_results]. split.
  - change (map (item_entry processor) files)
      with (item_entry processor <$> files).
    now rewrite list_lookup_fmap, Hi.
  - rewrite !has_status_item. now destruct (item_raises processor file).
Qed.

(** C1. A recognizer that reports a domain error in its result (an
    [error] key) is not isolated as an error entry by the batch: the entry
    is tagged success and counted as processed, while the single-upload
    handler answers the same upload with status 500. *)
Theorem batch_tags_reported_error_as_success `{Libs} (fs : FS) :
  batch_process (Some reporting_recognizer) (Some [sheet_upload]) fs =
    (Ok (inr {| b_total := 1; b_processed := 1; b_failed := 0;
                b_results :=
                  [ <["status" := JStr "success"]>
                      (<["filename" := JStr (secure_filename "a.png")]>
                         {["error" := JStr "No answers detected"]}) ] |},
         200),
     delete (staged_path sheet_upload) fs) /\
  process_omr (Some reporting_recognizer) (ReqFile sheet_upload) fs =
    (Ok ({["error" := JStr "No answers detected"]}, 500),
     delete (staged_path sheet_upload) fs).
Proof.
  split.
  - rewrite batch_process_some by discriminate.
    unfold count_status. cbn [map List.filter length fold_left].
    rewrite !has_status_item. reflexivity.
  - unfold process_omr, stage_request, recognize_staged, try_except,
      call_process_omr, file_save, bind, ret.
    cbn [sheet_upload filename String.eqb negb stream].
    change (allowed_file "a.png") with true. cbn [negb].
    rewrite lookup_insert_eq. cbn [reporting_recognizer model_process_omr].
    rewrite clean_up_ok, delete_insert_eq. reflexivity.
Qed.

(** ** Release of the staged file *)

(** The single-upload handler always answers, and the file it staged is gone
    when it does: after a result, after a reported error and after a raised
    fault alike. *)
Lemma recognize_staged_releases (processor : option OMRProcessor)
    (name filepath : string) (image : bytes) (fs : FS) :
  exists resp,
    recognize_staged processor name filepath (<[filepath := image]> fs)
    = (Ok resp, delete filepath fs).
Proof.
  unfold recognize_staged, try_except, bind, call_process_omr, ret,
    lift_result.
  destruct processor as [p|].
  - rewrite lookup_insert_eq.
    destruct (model_process_omr p image) as [d|e].
    + rewrite clean_up_ok, delete_insert_eq.
      destruct (d !! "error"); [eauto|].
      destruct (py_len _); [eauto|].
      rewrite clean_up_ok, delete_delete_eq. eauto.
    + rewrite clean_up_ok, delete_insert_eq. eauto.
  - rewrite clean_up_ok, delete_insert_eq. eauto.
Qed.

Lemma stage_request_cases `{Libs} (req : ProcessRequest) (fs : FS) :
  (exists early, stage_request req fs = (Ok (inl early), fs)) \/
  (exists name filepath image,
     stage_request req fs
     = (Ok (inr (name, filepath)), <[filepath := image]> fs)).
Proof.
  unfold stage_request. destruct req as [file|b64|].
  - destruct (String.eqb (filename file) ""); [left; unfold ret; eauto|].
    destruct (negb (allowed_file (filename file)));
      [left; unfold ret; eauto|].
    right. unfold bind, file_save, ret. eauto.
  - destruct (decode_base64_image b64) as [img|];
      [|left; unfold ret; eauto].
    right. unfold bind, cv2_imwrite, ret. eauto.
  - left. unfold ret. eauto.
Qed.

Lemma process_omr_releases `{Libs} (processor : option OMRProcessor)
    (req : ProcessRequest) (fs : FS) :
  exists resp fs',
    process_omr processor req fs = (Ok resp, fs') /\
    (fs' = fs \/ exists filepath, fs' = delete filepath fs).
Proof.
  unfold process_omr. destruct processor as [p|];
    [|eexists _, _; split; [reflexivity|now left]].
  unfold bind.
  destruct (stage_request_cases req fs)
    as [[early ->]|(name & filepath & image & ->)].
  - eexists _, _. split; [reflexivity|now left].
  - destruct (recognize_staged_releases (Some p) name filepath image fs)
      as [resp ->].
    eexists _, _. split; [reflexivity|]. right. now exists filepath.
Qed.

(** C7. When recognition raises, the batch leaves the staged file behind:
    its [except] clause only records the error, whereas the single-upload
    handler removes the file on the same fault. *)
Theorem batch_keeps_staged_file_after_fault `{Libs} :
  batch_process (Some raising_recognizer) (Some [sheet_upload]) ∅ =
    (Ok (inr {| b_total := 1; b_processed := 0; b_failed := 1;
                b_results := [error_entry "a.png" "cannot read image"] |},
         200),
     {[ staged_path sheet_upload := stream sheet_upload ]}) /\
  process_omr (Some raising_recognizer) (ReqFile sheet_upload) ∅ =
    (Ok (<["error" := JStr "cannot read image"]>
           {["processing_status" := JStr "failed"]}, 500),
     ∅).
Proof.
  split.
  - rewrite batch_process_some by discriminate.
    unfold count_status. cbn [map List.filter length fold_left].
    rewrite !has_status_item. reflexivity.
  - unfold process_omr, stage_request, recognize_staged, try_except,
      call_process_omr, file_save, bind, ret.
    cbn [sheet_upload filename String.eqb negb stream].
    change (allowed_file "a.png") with true. cbn [negb].
    rewrite lookup_insert_eq. cbn [raising_recognizer model_process_omr].
    rewrite clean_up_ok, delete_insert_eq, delete_empty. reflexivity.
Qed.

(** ** Service without a model *)

Lemma process_omr_without_model `{Libs} (req : ProcessRequest) (fs : FS) :
  process_omr None req fs = (Ok model_not_loaded, fs).
Proof. reflexivity. Qed.

(** C8. Without a loaded model the batch handler does not answer with the
    fixed "model not loaded" condition: it stages the upload, fails on the
    missing processor and returns status 200 with a per-item error entry;
    the single-upload handler answers 503 "Model not loaded" and touches
    nothing. *)
Theorem batch_without_model_reports_item_errors `{Libs} (fs : FS) :
  batch_process None (Some [sheet_upload]) fs =
    (Ok (inr {| b_total := 1; b_processed := 0; b_failed := 1;
                b_results :=
                  [error_entry "a.png"
                     "'NoneType' object has no attribute 'process_omr'"] |},
         200),
     <[staged_path sheet_upload := stream sheet_upload]> fs) /\
  process_omr None (ReqFile sheet_upload) fs = (Ok model_not_loaded, fs).
Proof.
  split; [|reflexivity].
  rewrite batch_process_some by discriminate.
  unfold count_status. cbn [map List.filter length fold_left].
  rewrite !has_status_item. reflexivity.
Qed.

(* ================================================================== *)
(** * Further properties of the handlers *)
(* ================================================================== *)

(** ** Scoring: counters *)

Lemma tally_correct_bounds (rows : list Row) :
  0 <= tally_correct rows <= Z.of_nat (length rows).
Proof.
  unfold tally_correct. pose proof (List.filter_length_le is_correct rows).
  lia.
Qed.

(** X1. The score lies between 0 and the total, and the total is the number
    of key entries, whatever the detected map holds. *)
Theorem validate_answers_score_bounds (detected_answers answer_key : PyDict.t) :
  exists r,
    validate_answers detected_answers answer_key = Ok r /\
    0 <= score r <= total r /\
    total r = Z.of_nat (length answer_key).
Proof.
  rewrite validate_answers_rows. cbv zeta.
  destruct (score_percentage_ok
              (tally_correct
                 (map (mk_row detected_answers answer_key)
                    (PyDict.keys answer_key)))
              (Z.of_nat (length answer_key))) as [p ->].
  cbn [rbind]. eexists. split; [reflexivity|].
  cbn [score total]. split; [|reflexivity].
  pose proof (tally_correct_bounds
                (map (mk_row detected_answers answer_key)
                   (PyDict.keys answer_key))) as Hb.
  rewrite List.length_map in Hb.
  replace (length (PyDict.keys answer_key)) with (length answer_key) in Hb
    by (unfold PyDict.keys; now rewrite List.length_map).
  exact Hb.
Qed.

(** ** Scoring: the order of the key *)

Lemma lookup_in_nodup (d : PyDict.t) (q : string) (v : pyval) :
  NoDup (PyDict.keys d) -> In (q, v) d -> PyDict.lookup d q = Some v.
Proof.
  induction d as [|[k w] d IH]; simpl; [tauto|].
  intros Hnd [Heq|Hin].
  - injection Heq as -> ->. now rewrite String.eqb_refl.
  - apply NoDup_cons in Hnd as [Hk Hnd].
    destruct (String.eqb_spec k q) as [->|_]; [|now apply IH].
    exfalso. apply Hk. apply list_elem_of_In.
    apply List.in_map_iff. now exists (q, v).
Qed.

Lemma lookup_permutation (d d' : PyDict.t) (q : string) :
  NoDup (PyDict.keys d) -> Permutation d d' ->
  PyDict.lookup d' q = PyDict.lookup d q.
Proof.
  intros Hnd Hp.
  assert (Hnd' : NoDup (PyDict.keys d')).
  { unfold PyDict.keys in *.
    assert (Hk : map fst d ≡ₚ map fst d') by now apply Permutation_map.
    now rewrite <- Hk. }
  destruct (PyDict.lookup d q) as [v|] eqn:E.
  - apply lookup_some_in in E. apply lookup_in_nodup; [assumption|].
    eapply Permutation_in; eassumption.
  - destruct (PyDict.lookup d' q) as [v'|] eqn:E'; [|reflexivity].
    apply lookup_some_in in E'.
    assert (Hin : In (q, v') d)
      by (eapply Permutation_in; [symmetry|]; eassumption).
    rewrite (lookup_in_nodup d q v' Hnd Hin) in E. discriminate.
Qed.

Lemma tally_correct_permutation (rows rows' : list Row) :
  Permutation rows rows' -> tally_correct rows = tally_correct rows'.
Proof.
  intros Hp. unfold tally_correct. f_equal.
  induction Hp as [|x l l' _ IH|x y l|l l' l'' _ IH1 _ IH2]; cbn [List.filter].
  - reflexivity.
  - destruct (is_correct x); cbn [length]; now rewrite IH.
  - destruct (is_correct x), (is_correct y); reflexivity.
  - now rewrite IH1.
Qed.

(** X2. Listing the entries of a key in another order changes neither the
    score, the total, the percentage nor the grade; the comparison rows are
    the same rows in the new order. *)
Theorem validate_answers_key_order
    (detected_answers answer_key answer_key' : PyDict.t) :
  NoDup (PyDict.keys answer_key) ->
  Permutation answer_key answer_key' ->
  exists r r',
    validate_answers detected_answers answer_key = Ok r /\
    validate_answers detected_answers answer_key' = Ok r' /\
    score r' = score r /\ total r' = total r /\
    percentage r' = percentage r /\ grade r' = grade r /\
    comparison r' =
      map (mk_row detected_answers answer_key) (PyDict.keys answer_key').
Proof.
  intros Hnd Hp. rewrite !validate_answers_rows. cbv zeta.
  assert (Hrows : map (mk_row detected_answers answer_key')
                    (PyDict.keys answer_key')
                  = map (mk_row detected_answers answer_key)
                      (PyDict.keys answer_key')).
  { apply map_ext. intros q. unfold mk_row, PyDict.get.
    now rewrite (lookup_permutation _ _ q Hnd Hp). }
  rewrite Hrows.
  assert (Htally : tally_correct
                     (map (mk_row detected_answers answer_key)
                        (PyDict.keys answer_key'))
                   = tally_correct
                       (map (mk_row detected_answers answer_key)
                          (PyDict.keys answer_key))).
  { apply tally_correct_permutation. apply Permutation_map.
    unfold PyDict.keys. apply Permutation_map. now symmetry. }
  rewrite Htally, <- (Permutation_length Hp).
  destruct (score_percentage_ok
              (tally_correct
                 (map (mk_row detected_answers answer_key)
                    (PyDict.keys answer_key)))
              (Z.of_nat (length answer_key))) as [p ->].
  cbn [rbind]. eexists. eexists.
  split; [reflexivity|]. split; [reflexivity|].
  cbn [score total percentage grade comparison]. auto 10.
Qed.

Lemma validate_answers_key_order_witness :
  exists r r',
    validate_answers [("2", PStr "B")] [("1", PStr "A"); ("2", PStr "B")]
      = Ok r /\
    validate_answers [("2", PStr "B")] [("2", PStr "B"); ("1", PStr "A")]
      = Ok r' /\
    score r' = score r /\ total r' = total r /\
    percentage r' = percentage r /\ grade r' = grade r.
Proof.
  destruct (validate_answers_key_order [("2", PStr "B")]
              [("1", PStr "A"); ("2", PStr "B")]
              [("2", PStr "B"); ("1", PStr "A")])
    as (r & r' & H1 & H2 & H3 & H4 & H5 & H6 & _).
  - unfold PyDict.keys. cbn [map fst]. apply NoDup_cons. split.
    + intros Hin. apply list_elem_of_In in Hin.
      destruct Hin as [Hin|[]]. discriminate Hin.
    + apply NoDup_singleton.
  - apply perm_swap.
  - exists r, r'. auto 10.
Defined.

(** ** Scoring: no match at all *)

Lemma truediv_zero (t : Z) : t <> 0 -> PyNum.truediv 0 t = Ok 0%Q.
Proof.
  intros Ht. unfold PyNum.truediv. destruct (Z.eqb_spec t 0); [lia|].
  rewrite (fl64_Qeq _ 0%Q); [reflexivity|].
  unfold Qdiv. apply Qmult_0_l.
Qed.

(** X3. When no question of the key is answered with an equal value, the
    score is 0, the percentage 0 and the grade F. *)
Theorem validate_answers_no_match (detected_answers answer_key : PyDict.t) :
  (forall q, In q (PyDict.keys answer_key) ->
     py_eq (PyDict.get detected_answers q) (PyDict.get answer_key q) = false) ->
  exists r,
    validate_answers detected_answers answer_key = Ok r /\
    score r = 0 /\ percentage r = 0%Q /\ grade r = "F".
Proof.
  intros Hno. rewrite validate_answers_rows. cbv zeta.
  rewrite tally_none_correct by (intros q Hq; cbn; now apply Hno).
  unfold score_percentage.
  destruct (Z.gtb_spec (Z.of_nat (length answer_key)) 0) as [Hgt|Hle].
  - rewrite truediv_zero by lia. cbn [rbind].
    eexists. split; [reflexivity|]. cbn [score percentage grade].
    repeat split; vm_compute; reflexivity.
  - cbn [rbind]. eexists. split; [reflexivity|].
    cbn [score percentage grade]. repeat split; vm_compute; reflexivity.
Qed.

Lemma validate_answers_no_match_witness :
  exists r,
    validate_answers [("1", PStr "B")] [("1", PStr "A"); ("2", PStr "C")]
      = Ok r /\
    score r = 0 /\ percentage r = 0%Q /\ grade r = "F".
Proof.
  apply (validate_answers_no_match [("1", PStr "B")]
           [("1", PStr "A"); ("2", PStr "C")]).
  intros q [<-|[<-|[]]]; reflexivity.
Defined.

(** ** Grades are monotone *)

(** X4. A higher percentage never gets a lower grade on the scale
    F < D < C < B < A < A+. *)
Theorem get_grade_monotone (p q : Q) :
  (p <= q)%Q -> grade_rank (get_grade p) <= grade_rank (get_grade q).
Proof.
  intros Hpq. grade_cases p; grade_cases q;
    solve [vm_compute; discriminate | exfalso; lra].
Qed.

Lemma get_grade_monotone_witness :
  grade_rank (get_grade (65 # 1)) <= grade_rank (get_grade (85 # 1)).
Proof. apply get_grade_monotone. unfold Qle; simpl; lia. Defined.

(** ** Percentages stay between 0 and 100 *)

Lemma pow2_pos (k : Z) : (0 < PyNum.pow2 k)%Q.
Proof.
  unfold PyNum.pow2. destruct (Z.leb_spec 0 k).
  - assert (0 < 2 ^ k) by (apply Z.pow_pos_nonneg; lia).
    unfold Qlt; simpl; lia.
  - reflexivity.
Qed.

Lemma pow2_inv (k : Z) :
  k <= 0 -> (PyNum.pow2 k * inject_Z (2 ^ (- k)) == 1)%Q.
Proof.
  intros Hk. unfold PyNum.pow2. destruct (Z.leb_spec 0 k).
  - assert (k = 0) by lia. subst k. reflexivity.
  - assert (0 < 2 ^ (- k)) by (apply Z.pow_pos_nonneg; lia).
    unfold Qeq, Qmult, inject_Z; simpl.
    rewrite Pos.mul_1_r, Z2Pos.id by assumption. lia.
Qed.

Lemma rhe_nonneg (x : Q) : (0 <= x)%Q -> 0 <= PyNum.round_half_even x.
Proof.
  intros Hx. unfold PyNum.round_half_even.
  assert (0 <= Qfloor x) by (apply (Qfloor_resp_le 0 x Hx)).
  destruct (Qcompare _ _); [destruct (Z.even _)|..]; lia.
Qed.

Lemma rhe_le (x : Q) (K : Z) :
  (x <= inject_Z K)%Q -> PyNum.round_half_even x <= K.
Proof.
  intros Hx. unfold PyNum.round_half_even.
  assert (Hf : Qfloor x <= K).
  { rewrite <- (Qfloor_Z K). now apply Qfloor_resp_le. }
  destruct (Z.eq_dec (Qfloor x) K) as [Heq|Hne].
  - assert (Hlt : (x - inject_Z (Qfloor x) < 1 # 2)%Q).
    { rewrite Heq. lra. }
    apply Qlt_alt in Hlt. unfold Qcompare in *. rewrite Hlt. lia.
  - destruct (Qcompare _ _); [destruct (Z.even _)|..]; lia.
Qed.

Lemma fl64_core_le (a : Q) (E N : Z) :
  (0 <= a)%Q -> (a <= inject_Z N)%Q -> E <= 52 ->
  (inject_Z (PyNum.round_half_even (a / PyNum.pow2 (E - 52)))
   * PyNum.pow2 (E - 52) <= inject_Z N)%Q.
Proof.
  intros Ha HN HE.
  pose proof (pow2_pos (E - 52)) as Hu.
  pose proof (pow2_inv (E - 52) ltac:(lia)) as Hinv.
  set (u := PyNum.pow2 (E - 52)) in *.
  set (D := 2 ^ (- (E - 52))) in *.
  assert (HD : 0 < D) by (apply Z.pow_pos_nonneg; lia).
  assert (Hdiv : (a / u == a * inject_Z D)%Q).
  { assert (H1 : (/ u * (u * inject_Z D) == inject_Z D)%Q) by (field; lra).
    rewrite Hinv, Qmult_1_r in H1. unfold Qdiv. now rewrite H1. }
  assert (Hle : (a / u <= inject_Z (N * D))%Q).
  { rewrite Hdiv, inject_Z_mult.
    apply Qmult_le_compat_r; [assumption|].
    unfold Qle; simpl; lia. }
  apply rhe_le in Hle.
  assert (Hm : (inject_Z (PyNum.round_half_even (a / u))
                <= inject_Z (N * D))%Q).
  { now rewrite <- Zle_Qle. }
  apply (Qmult_le_compat_r _ _ u) in Hm; [|lra].
  rewrite inject_Z_mult in Hm.
  assert (Hend : (inject_Z N * inject_Z D * u == inject_Z N)%Q).
  { rewrite <- Qmult_assoc, (Qmult_comm (inject_Z D)), Hinv. ring. }
  rewrite Hend in Hm. exact Hm.
Qed.

Lemma fl64_nonneg (q : Q) : (0 <= q)%Q -> (0 <= PyNum.fl64 q)%Q.
Proof.
  intros Hq. unfold PyNum.fl64.
  pose proof (Qred_correct q) as Hr.
  destruct (Qred q) as [n d]. cbn [Qnum Qden].
  destruct n as [|p|p].
  - lra.
  - rewrite Qred_correct. cbn [Qabs Z.abs Z.sgn Qnum Qden]. rewrite Z.mul_1_l.
    apply Qmult_le_0_compat.
    + change 0%Q with (inject_Z 0). rewrite <- Zle_Qle. apply rhe_nonneg.
      apply Qle_shift_div_l; [apply pow2_pos|].
      rewrite Qmult_0_l. unfold Qle; simpl; lia.
    + apply Qlt_le_weak, pow2_pos.
  - exfalso. assert (Hneg : ((Z.neg p # d) < 0)%Q) by reflexivity. lra.
Qed.

Lemma fl64_le_int (q : Q) (N : Z) :
  (0 <= q)%Q -> (q <= inject_Z N)%Q -> 0 < N -> Z.log2 N <= 51 ->
  (PyNum.fl64 q <= inject_Z N)%Q.
Proof.
  intros Hq HqN HN Hlog. unfold PyNum.fl64.
  pose proof (Qred_correct q) as Hr.
  destruct (Qred q) as [n d]. cbn [Qnum Qden].
  destruct n as [|p|p].
  - unfold Qle; simpl; lia.
  - rewrite Qred_correct. cbn [Qabs Z.abs Z.sgn Qnum Qden]. rewrite Z.mul_1_l.
    assert (HpN : Z.pos p <= N * Z.pos d).
    { assert (Hle : ((Z.pos p # d) <= inject_Z N)%Q) by lra.
      unfold Qle in Hle. cbn [Qnum Qden inject_Z] in Hle. lia. }
    assert (He0 : Z.log2 (Z.pos p) - Z.log2 (Z.pos d) <= 52).
    { pose proof (Z.log2_le_mono _ _ HpN).
      pose proof (Z.log2_mul_above N (Z.pos d) ltac:(lia) ltac:(lia)).
      lia. }
    change (Z.abs (Z.pos p)) with (Z.pos p).
    apply fl64_core_le.
    + unfold Qle; simpl; lia.
    + lra.
    + destruct (Qle_bool _ _); lia.
  - exfalso. assert (Hneg : ((Z.neg p # d) < 0)%Q) by reflexivity. lra.
Qed.

Lemma percent_chain_bounds (c t : Z) :
  0 <= c <= t -> 0 < t ->
  exists p, score_percentage c t = Ok p /\
            (0 <= p <= 100)%Q /\ (0 <= PyNum.round p 2 <= 100)%Q.
Proof.
  intros Hc Ht. unfold score_percentage, PyNum.truediv.
  destruct (Z.gtb_spec t 0); [|lia].
  destruct (Z.eqb_spec t 0); [lia|]. cbn [rbind].
  eexists. split; [reflexivity|].
  assert (Hq : (0 <= inject_Z c / inject_Z t <= 1)%Q).
  { assert (Ht' : (0 < inject_Z t)%Q)
      by (change 0%Q with (inject_Z 0); rewrite <- Zlt_Qlt; lia).
    split.
    - apply Qle_shift_div_l; [assumption|]. rewrite Qmult_0_l.
      change 0%Q with (inject_Z 0). rewrite <- Zle_Qle. lia.
    - apply Qle_shift_div_r; [assumption|]. rewrite Qmult_1_l.
      rewrite <- Zle_Qle. lia. }
  set (x := PyNum.fl64 (inject_Z c / inject_Z t)).
  assert (Hx : (0 <= x <= 1)%Q).
  { split; [apply fl64_nonneg; tauto|].
    apply (fl64_le_int _ 1); (tauto || lia || (vm_compute; discriminate)). }
  unfold PyNum.mul. set (y := PyNum.fl64 (x * inject_Z 100)).
  assert (Hy : (0 <= y <= 100)%Q).
  { assert (Hxy : (0 <= x * inject_Z 100 <= inject_Z 100)%Q).
    { change (inject_Z 100) with 100%Q. lra. }
    split; [apply fl64_nonneg; tauto|].
    apply (fl64_le_int _ 100); (tauto || lia || (vm_compute; discriminate)). }
  split; [exact Hy|].
  unfold PyNum.round. change (10 ^ 2) with 100.
  set (k := PyNum.round_half_even (y * inject_Z 100)).
  assert (Hk : 0 <= k <= 10000).
  { split.
    - apply rhe_nonneg. change (inject_Z 100) with 100%Q. lra.
    - apply rhe_le. change (inject_Z 100) with 100%Q.
      change (inject_Z 10000) with 10000%Q. lra. }
  assert (Hz : (0 <= inject_Z k / inject_Z 100 <= inject_Z 100)%Q).
  { assert (Hk1 : (inject_Z 0 <= inject_Z k)%Q) by (rewrite <- Zle_Qle; lia).
    assert (Hk2 : (inject_Z k <= inject_Z 10000)%Q)
      by (rewrite <- Zle_Qle; lia).
    change (inject_Z 100) with 100%Q. change (inject_Z 0) with 0%Q in Hk1.
    change (inject_Z 10000) with 10000%Q in Hk2.
    split.
    - apply Qle_shift_div_l; lra.
    - apply Qle_shift_div_r; lra. }
  split; [apply fl64_nonneg; tauto|].
  apply (fl64_le_int _ 100); (tauto || lia || (vm_compute; discriminate)).
Qed.

(** X5. The reported percentage always lies between 0 and 100, binary64
    rounding included. *)
Theorem validate_answers_percentage_bounds
    (detected_answers answer_key : PyDict.t) :
  exists r,
    validate_answers detected_answers answer_key = Ok r /\
    (0 <= percentage r <= 100)%Q.
Proof.
  destruct (validate_answers_score_bounds detected_answers answer_key)
    as (r & Hr & Hscore & Htotal).
  exists r. split; [exact Hr|].
  unfold validate_answers in Hr.
  destruct (for_each _ _ _) as [st|]; cbn [rbind] in Hr; [|discriminate].
  destruct (Z.eq_dec (t_total st) 0) as [Hz|Hnz].
  - unfold score_percentage in Hr. rewrite Hz in Hr. cbn in Hr.
    injection Hr as <-. cbn [percentage]. vm_compute. split; discriminate.
  - destruct (score_percentage (t_correct st) (t_total st)) as [p|] eqn:Hp;
      cbn [rbind] in Hr; [|discriminate].
    injection Hr as <-. cbn [percentage score total] in *.
    destruct (percent_chain_bounds (t_correct st) (t_total st))
      as (p' & Hp' & _ & Hround); [lia|lia|].
    rewrite Hp in Hp'. injection Hp' as <-. exact Hround.
Qed.

(** ** Admissible file names *)

Lemma contains_dot_cons (a : ascii) (s : string) :
  PyStr.contains "." (String a s) = Ascii.eqb "." a || PyStr.contains "." s.
Proof.
  rewrite contains_cons. cbn [PyStr.starts_with].
  now rewrite andb_true_r.
Qed.

Lemma rsplit1_dotless (s : string) :
  dotless s = true -> PyStr.rsplit1 "." s = [s].
Proof.
  unfold dotless. induction s as [|a s IH]; [reflexivity|].
  rewrite contains_dot_cons, negb_orb. intros [Ha Hs]%andb_prop.
  cbn [PyStr.rsplit1]. rewrite (IH Hs), Ascii.eqb_sym.
  now destruct (Ascii.eqb "." a).
Qed.

Lemma rsplit1_last_dot (stem ext : string) :
  dotless ext = true ->
  PyStr.rsplit1 "." (stem +:+ "." +:+ ext) = [stem; ext].
Proof.
  intros Hext. induction stem as [|a stem IH].
  - rewrite append_nil, append_cons, append_nil. cbn [PyStr.rsplit1].
    now rewrite (rsplit1_dotless _ Hext).
  - rewrite append_cons. cbn [PyStr.rsplit1]. now rewrite IH.
Qed.

Lemma contains_dot_app (stem ext : string) :
  PyStr.contains "." (stem +:+ "." +:+ ext) = true.
Proof.
  induction stem as [|a stem IH].
  - reflexivity.
  - rewrite append_cons, contains_dot_cons, IH. apply orb_true_r.
Qed.

Lemma last_dot (s : string) :
  PyStr.contains "." s = true ->
  exists stem ext, s = stem +:+ "." +:+ ext /\ dotless ext = true.
Proof.
  induction s as [|a s IH]; [discriminate|].
  rewrite contains_dot_cons.
  destruct (PyStr.contains "." s) eqn:Hs.
  - intros _. destruct (IH eq_refl) as (stem & ext & -> & Hext).
    exists (String a stem), ext. now rewrite append_cons.
  - rewrite orb_false_r. intros ->%Ascii.eqb_eq.
    exists "", s. split; [reflexivity|]. unfold dotless. now rewrite Hs.
Qed.

(** X6. A name is admissible exactly when the text after its last dot,
    lower-cased, is one of png, jpg, jpeg, bmp, tiff; whatever precedes the
    last dot, other dots included, plays no part. *)
Theorem allowed_file_iff (name : string) :
  allowed_file name = true <->
  exists stem ext,
    name = stem +:+ "." +:+ ext /\
    dotless ext = true /\
    In (PyStr.lower ext) ALLOWED_EXTENSIONS.
Proof.
  unfold allowed_file. split.
  - intros [Hdot Hext]%andb_prop.
    destruct (last_dot name Hdot) as (stem & ext & -> & Hdl).
    rewrite (rsplit1_last_dot _ _ Hdl) in Hext.
    apply existsb_exists in Hext as (e & Hin & Heq%String.eqb_eq).
    exists stem, ext. now rewrite Heq.
  - intros (stem & ext & -> & Hdl & Hin).
    rewrite contains_dot_app, (rsplit1_last_dot _ _ Hdl). cbn [andb].
    apply existsb_exists. exists (PyStr.lower ext).
    split; [assumption|apply String.eqb_refl].
Qed.

Lemma lower_ascii_dot (a : ascii) :
  Ascii.eqb "." (PyStr.lower_ascii a) = Ascii.eqb "." a.
Proof. destruct a as [[] [] [] [] [] [] [] []]; reflexivity. Qed.

Lemma lower_ascii_idem (a : ascii) :
  PyStr.lower_ascii (PyStr.lower_ascii a) = PyStr.lower_ascii a.
Proof. destruct a as [[] [] [] [] [] [] [] []]; reflexivity. Qed.

Lemma lower_idem (s : string) : PyStr.lower (PyStr.lower s) = PyStr.lower s.
Proof.
  induction s as [|a s IH]; [reflexivity|].
  cbn [PyStr.lower]. now rewrite lower_ascii_idem, IH.
Qed.

Lemma contains_dot_lower (s : string) :
  PyStr.contains "." (PyStr.lower s) = PyStr.contains "." s.
Proof.
  induction s as [|a s IH]; [reflexivity|].
  cbn [PyStr.lower]. now rewrite !contains_dot_cons, lower_ascii_dot, IH.
Qed.

Lemma rsplit1_lower (s : string) :
  PyStr.rsplit1 "." (PyStr.lower s) = map PyStr.lower (PyStr.rsplit1 "." s).
Proof.
  induction s as [|a s IH]; [reflexivity|].
  cbn [PyStr.lower PyStr.rsplit1]. rewrite IH.
  rewrite (Ascii.eqb_sym (PyStr.lower_ascii a)), lower_ascii_dot,
    (Ascii.eqb_sym "." a).
  destruct (PyStr.rsplit1 "." s) as [|x [|y l]]; [reflexivity| |reflexivity].
  cbn [map]. now destruct (Ascii.eqb a ".").
Qed.

(** X7. The admission test ignores letter case: a name and its lower-cased
    form are admitted or rejected together. *)
Theorem allowed_file_lower (name : string) :
  allowed_file (PyStr.lower name) = allowed_file name.
Proof.
  unfold allowed_file. rewrite contains_dot_lower, rsplit1_lower.
  destruct (PyStr.rsplit1 "." name) as [|x [|y [|z l]]]; try reflexivity.
  cbn [map]. now rewrite lower_idem.
Qed.

(** ** The second marker of a payload *)

(** X8. Of a text holding the marker [base64,] twice, only the part between
    the first and the second marker is decoded; what follows the second
    marker is dropped. *)
Theorem decode_base64_image_second_marker `{Libs}
    (header payload rest : string) :
  PyStr.contains base64_marker header = false ->
  PyStr.contains base64_marker payload = false ->
  decode_base64_image
    (header +:+ base64_marker +:+ payload +:+ base64_marker +:+ rest)
  = decode_base64_image payload.
Proof.
  intros Hh Hp. unfold decode_base64_image at 1.
  pose proof (find_marker header
                (payload +:+ base64_marker +:+ rest) Hh) as Hfind.
  rewrite (find_some_contains _ _ _ _ Hfind).
  rewrite <- (split_fuel_enough base64_marker ltac:(discriminate)
                (2 + String.length
                       (header +:+ base64_marker +:+ payload +:+
                        base64_marker +:+ rest))%nat) by lia.
  cbn [Nat.add PyStr.split_fuel]. rewrite Hfind.
  rewrite (find_marker payload rest Hp). cbn [PyStr.index nth_error rbind].
  unfold decode_base64_image. now rewrite Hp.
Qed.

Lemma decode_base64_image_second_marker_witness :
  @decode_base64_image plain_libs
    ("data:image/png;" +:+ base64_marker +:+ "iVBORw0KGgo=" +:+
     base64_marker +:+ "AAAA")
  = @decode_base64_image plain_libs "iVBORw0KGgo=".
Proof.
  apply (@decode_base64_image_second_marker plain_libs); reflexivity.
Defined.

(** ** [/api/process]: answers and staging *)

Ltac run_staged :=
  unfold recognize_staged, try_except, bind, call_process_omr, ret,
    lift_result;
  rewrite ?lookup_insert_eq.

Lemma recognize_staged_cases (processor : option OMRProcessor)
    (name filepath : string) (image : bytes) (fs : FS) :
  exists body status,
    recognize_staged processor name filepath (<[filepath := image]> fs)
    = (Ok (body, status), delete filepath fs) /\
    (status = 200 \/ status = 500).
Proof.
  run_staged. destruct processor as [p|].
  - rewrite ?lookup_insert_eq.
    destruct (model_process_omr p image) as [d|e].
    + rewrite clean_up_ok, delete_insert_eq.
      destruct (d !! "error"); [eexists _, _; split; [reflexivity|lia]|].
      destruct (py_len _).
      * eexists _, _; split; [reflexivity|lia].
      * rewrite clean_up_ok, delete_delete_eq.
        eexists _, _; split; [reflexivity|lia].
    + rewrite clean_up_ok, delete_insert_eq.
      eexists _, _; split; [reflexivity|lia].
  - rewrite clean_up_ok, delete_insert_eq.
    eexists _, _; split; [reflexivity|lia].
Qed.

Lemma stage_request_outcome `{Libs} (req : ProcessRequest) (fs : FS) :
  (exists body, stage_request req fs = (Ok (inl (body, 400)), fs)) \/
  (exists name image,
     stage_request req fs
     = (Ok (inr (name, request_path req)),
        <[request_path req := image]> fs)).
Proof.
  unfold stage_request, request_path. destruct req as [file|b64|].
  - destruct (String.eqb (filename file) ""); [left; unfold ret; eauto|].
    destruct (negb (allowed_file (filename file)));
      [left; unfold ret; eauto|].
    right. unfold bind, file_save, ret, staged_path. eauto.
  - destruct (decode_base64_image b64) as [img|];
      [|left; unfold ret; eauto].
    right. unfold bind, cv2_imwrite, ret. eauto.
  - left. unfold ret. eauto.
Qed.

(** X9. The single-upload handler always answers, with status 200, 400, 500
    or 503, and with 503 exactly when no model is loaded. *)
Theorem process_omr_status `{Libs} (processor : option OMRProcessor)
    (req : ProcessRequest) (fs : FS) :
  exists body status fs',
    process_omr processor req fs = (Ok (body, status), fs') /\
    (status = 200 \/ status = 400 \/ status = 500 \/ status = 503) /\
    (status = 503 <-> processor = None).
Proof.
  unfold process_omr. destruct processor as [p|].
  - unfold bind.
    destruct (stage_request_outcome req fs)
      as [[body ->]|(name & image & ->)].
    + exists body, 400, fs. unfold ret.
      split; [reflexivity|]. split; [lia|]. split; [lia|discriminate].
    + destruct (recognize_staged_cases (Some p) name (request_path req)
                  image fs) as (body & status & -> & Hst).
      exists body, status, (delete (request_path req) fs).
      split; [reflexivity|]. split; [lia|]. split; [lia|discriminate].
  - exists (fst model_not_loaded), 503, fs.
    split; [reflexivity|]. split; [lia|]. split; reflexivity.
Qed.

(** X10. A request answered with status 400 has left the staging area as it
    was and has not reached the recognizer: any other loaded model gives the
    same answer. *)
Theorem process_omr_rejected `{Libs} (processor : option OMRProcessor)
    (req : ProcessRequest) (fs fs' : FS) (body : gmap string jval) :
  process_omr processor req fs = (Ok (body, 400), fs') ->
  fs' = fs /\
  forall p', process_omr (Some p') req fs = (Ok (body, 400), fs).
Proof.
  unfold process_omr. destruct processor as [p|]; [|discriminate].
  unfold bind.
  destruct (stage_request_outcome req fs)
    as [[body0 ->]|(name & image & ->)].
  - unfold ret. intros [= <- <-]. auto.
  - destruct (recognize_staged_cases (Some p) name (request_path req)
                image fs) as (body1 & status & -> & Hst).
    intros [= _ Hs _]. lia.
Qed.

Lemma process_omr_rejected_witness :
  ∅ = (∅ : FS) /\
  forall p',
    @process_omr plain_libs (Some p')
      (ReqFile {| filename := "notes.txt"; stream := [] |}) ∅
    = (Ok (<["error" := JStr "Invalid file type"]>
             {["allowed_types" := JArr (map PStr ALLOWED_EXTENSIONS)]}, 400),
       ∅).
Proof.
  apply (@process_omr_rejected plain_libs (Some answering_recognizer)
           (ReqFile {| filename := "notes.txt"; stream := [] |})).
  reflexivity.
Defined.

(** X11. The handler changes the staging area at one path at most, the one
    it stages the request at: when it answers, the area is as before or as
    before without that path (a file that was already there is removed with
    it); every other file is untouched. *)
Theorem process_omr_staging_frame `{Libs} (processor : option OMRProcessor)
    (req : ProcessRequest) (fs : FS) :
  exists resp fs',
    process_omr processor req fs = (Ok resp, fs') /\
    (fs' = fs \/ fs' = delete (request_path req) fs) /\
    forall path, path <> request_path req -> fs' !! path = fs !! path.
Proof.
  unfold process_omr. destruct processor as [p|].
  - unfold bind.
    destruct (stage_request_outcome req fs)
      as [[body ->]|(name & image & ->)].
    + eexists _, fs. unfold ret. split; [reflexivity|]. auto.
    + destruct (recognize_staged_cases (Some p) name (request_path req)
                  image fs) as (body & status & -> & _).
      eexists _, _. split; [reflexivity|]. split; [now right|].
      intros path Hne. now rewrite lookup_delete_ne.
  - eexists _, fs. split; [reflexivity|]. auto.
Qed.

Section Upload.
Context `{Libs}.
Variables (p : OMRProcessor) (file : FileStorage) (fs : FS).
Hypothesis Hname : filename file <> "".
Hypothesis Hallowed : allowed_file (filename file) = true.

Lemma process_omr_upload :
  process_omr (Some p) (ReqFile file) fs =
  recognize_staged (Some p) (secure_filename (filename file))
    (staged_path file) (<[staged_path file := stream file]> fs).
Proof.
  unfold process_omr, stage_request.
  apply String.eqb_neq in Hname. rewrite Hname, Hallowed. reflexivity.
Qed.

(** X12. An admissible upload whose recognition returns a result without an
    [error] key is answered 200 with that result plus a [metadata] entry:
    the sanitized file name, the number of entries of [answers] (0 when the
    result has no [answers]) and the status success; the staged file is
    gone. *)
Theorem process_omr_success (d : gmap string jval) (answers : PyDict.t) :
  model_process_omr p (stream file) = Ok d ->
  d !! "error" = None ->
  default (JObj []) (d !! "answers") = JObj answers ->
  process_omr (Some p) (ReqFile file) fs =
  (Ok (<["metadata" :=
           JObj [("filename", PStr (secure_filename (filename file)));
                 ("questions_detected", PInt (Z.of_nat (length answers)));
                 ("processing_status", PStr "success")]]> d, 200),
   delete (staged_path file) fs).
Proof.
  intros Hd Herr Hans. rewrite process_omr_upload. run_staged.
  rewrite Hd, clean_up_ok, delete_insert_eq, Herr, Hans. reflexivity.
Qed.

(** X13. When the recognizer's result has an [error] key, the answer is 500
    and carries that error value alone: every other key of the result is
    dropped; the staged file is gone. *)
Theorem process_omr_reported_error (d : gmap string jval) (err : jval) :
  model_process_omr p (stream file) = Ok d ->
  d !! "error" = Some err ->
  process_omr (Some p) (ReqFile file) fs =
  (Ok ({["error" := err]}, 500), delete (staged_path file) fs).
Proof.
  intros Hd Herr. rewrite process_omr_upload. run_staged.
  rewrite Hd, clean_up_ok, delete_insert_eq, Herr. reflexivity.
Qed.

(** X14. A result whose [answers] has no length (a number, a boolean,
    null) makes the handler answer 500 with [processing_status] failed,
    although recognition itself succeeded; the staged file is gone. *)
Theorem process_omr_unsized_answers (d : gmap string jval) (e : exn) :
  model_process_omr p (stream file) = Ok d ->
  d !! "error" = None ->
  py_len (default (JObj []) (d !! "answers")) = Raise e ->
  process_omr (Some p) (ReqFile file) fs =
  (Ok (failed_body e, 500), delete (staged_path file) fs).
Proof.
  intros Hd Herr Hlen. rewrite process_omr_upload. run_staged.
  rewrite Hd, clean_up_ok, delete_insert_eq, Herr, Hlen.
  rewrite clean_up_ok, delete_delete_eq. reflexivity.
Qed.

End Upload.

Lemma process_omr_success_witness :
  @process_omr plain_libs (Some answering_recognizer) (ReqFile sheet_upload) ∅
  = (Ok (<["metadata" :=
             JObj [("filename", PStr "a.png");
                   ("questions_detected", PInt 1);
                   ("processing_status", PStr "success")]]>
           {["answers" := JObj [("1", PStr "A")]]}, 200),
     delete (@staged_path plain_libs sheet_upload) ∅).
Proof.
  apply (@process_omr_success plain_libs answering_recognizer sheet_upload ∅
           ltac:(discriminate) eq_refl
           {["answers" := JObj [("1", PStr "A")]]} [("1", PStr "A")]);
    reflexivity.
Defined.

Lemma process_omr_reported_error_witness :
  @process_omr plain_libs (Some reporting_recognizer) (ReqFile sheet_upload) ∅
  = (Ok ({["error" := JStr "No answers detected"]}, 500),
     delete (@staged_path plain_libs sheet_upload) ∅).
Proof.
  apply (@process_omr_reported_error plain_libs reporting_recognizer
           sheet_upload ∅ ltac:(discriminate) eq_refl
           {["error" := JStr "No answers detected"]});
    reflexivity.
Defined.

Lemma process_omr_unsized_answers_witness :
  @process_omr plain_libs
    (Some {| model_process_omr := fun _ => Ok {["answers" := JVal (PInt 3)]} |})
    (ReqFile sheet_upload) ∅
  = (Ok (failed_body (TypeError "object of type 'int' has no len()"), 500),
     delete (@staged_path plain_libs sheet_upload) ∅).
Proof.
  apply (@process_omr_unsized_answers plain_libs _ sheet_upload ∅
           ltac:(discriminate) eq_refl {["answers" := JVal (PInt 3)]});
    reflexivity.
Defined.

(** ** [/api/batch]: composition, counters and staging *)

Lemma count_status_app (s : string) (xs ys : list (gmap string jval)) :
  count_status s (xs ++ ys) = count_status s xs + count_status s ys.
Proof.
  unfold count_status. rewrite List.filter_app, length_app. lia.
Qed.

(** X15. A batch of two groups of uploads is the batch of the first group
    followed by the batch of the second on the staging area the first one
    left: the results are concatenated and the counters add up. *)
Theorem batch_process_app `{Libs} (processor : option OMRProcessor)
    (xs ys : list FileStorage) (fs : FS) :
  xs <> [] -> ys <> [] ->
  exists r1 fs1 r2 fs2,
    batch_process processor (Some xs) fs = (Ok (inr r1, 200), fs1) /\
    batch_process processor (Some ys) fs1 = (Ok (inr r2, 200), fs2) /\
    batch_process processor (Some (xs ++ ys)) fs =
      (Ok (inr {| b_total := b_total r1 + b_total r2;
                  b_processed := b_processed r1 + b_processed r2;
                  b_failed := b_failed r1 + b_failed r2;
                  b_results := b_results r1 ++ b_results r2 |}, 200),
       fs2).
Proof.
  intros Hx Hy.
  assert (Hxy : xs ++ ys <> [])
    by (destruct xs; [congruence|discriminate]).
  eexists _, _, _, _.
  split; [apply batch_process_some; assumption|].
  split; [apply batch_process_some; assumption|].
  rewrite batch_process_some by assumption.
  cbn [b_total b_processed b_failed b_results].
  rewrite List.map_app, !count_status_app, length_app, Nat2Z.inj_add,
    fold_left_app.
  reflexivity.
Qed.

Lemma batch_process_app_witness :
  exists r1 fs1 r2 fs2,
    @batch_process plain_libs (Some answering_recognizer)
      (Some [sheet_upload]) ∅ = (Ok (inr r1, 200), fs1) /\
    @batch_process plain_libs (Some answering_recognizer)
      (Some [sheet_upload]) fs1 = (Ok (inr r2, 200), fs2) /\
    @batch_process plain_libs (Some answering_recognizer)
      (Some ([sheet_upload] ++ [sheet_upload])) ∅ =
      (Ok (inr {| b_total := b_total r1 + b_total r2;
                  b_processed := b_processed r1 + b_processed r2;
                  b_failed := b_failed r1 + b_failed r2;
                  b_results := b_results r1 ++ b_results r2 |}, 200),
       fs2).
Proof.
  apply (@batch_process_app plain_libs (Some answering_recognizer)
           [sheet_upload] [sheet_upload] ∅); discriminate.
Defined.

Lemma count_status_raises `{Libs} (processor : option OMRProcessor)
    (files : list FileStorage) :
  count_status "error" (map (item_entry processor) files)
  = Z.of_nat (length (List.filter (item_raises processor) files)) /\
  count_status "success" (map (item_entry processor) files)
  = Z.of_nat
      (length (List.filter (fun f => negb (item_raises processor f)) files)).
Proof.
  unfold count_status.
  induction files as [|file files [IHe IHs]]; [split; reflexivity|].
  cbn [map List.filter]. rewrite !has_status_item.
  destruct (item_raises processor file); cbn in *; split; lia.
Qed.

(** X16. In a batch report [failed] counts the uploads whose name is not
    admissible or whose recognition raises, and [processed] counts all the
    others, a result with an [error] key included. *)
Theorem batch_process_counts `{Libs} (processor : option OMRProcessor)
    (files : list FileStorage) (fs : FS) :
  files <> [] ->
  exists report fs',
    batch_process processor (Some files) fs = (Ok (inr report, 200), fs') /\
    b_failed report
    = Z.of_nat (length (List.filter (item_raises processor) files)) /\
    b_processed report
    = Z.of_nat
        (length (List.filter (fun f => negb (item_raises processor f))
                   files)).
Proof.
  intros Hne. eexists _, _.
  split; [apply batch_process_some; assumption|].
  cbn [b_failed b_processed].
  destruct (count_status_raises processor files) as [He Hs]. auto.
Qed.

Lemma batch_process_counts_witness :
  exists report fs',
    @batch_process plain_libs (Some reporting_recognizer)
      (Some [sheet_upload; {| filename := "notes.txt"; stream := [] |}]) ∅
    = (Ok (inr report, 200), fs') /\
    b_failed report = 1 /\ b_processed report = 1.
Proof.
  apply (@batch_process_counts plain_libs (Some reporting_recognizer)
           [sheet_upload; {| filename := "notes.txt"; stream := [] |}] ∅).
  discriminate.
Defined.

Lemma fold_item_fs_frame `{Libs} (processor : option OMRProcessor)
    (files : list FileStorage) (path : string) :
  (forall file, In file files -> inadmissible file = false ->
     path <> staged_path file) ->
  forall fs : FS,
  fold_left (item_fs processor) files fs !! path = fs !! path.
Proof.
  induction files as [|f files IH]; intros Hpath fs; [reflexivity|].
  cbn [fold_left]. rewrite IH by (intros; apply Hpath; [now right|assumption]).
  unfold item_fs. destruct (inadmissible f) eqn:Hf; [reflexivity|].
  assert (Hne : staged_path f <> path)
    by (intros Heq; apply (Hpath f); [now left|assumption|now symmetry]).
  destruct (item_outcome processor f).
  - now rewrite lookup_delete_ne.
  - now rewrite lookup_insert_ne.
Qed.

Lemma fold_item_fs_absent `{Libs} (processor : option OMRProcessor)
    (files : list FileStorage) (path : string) :
  (forall file, In file files -> item_raises processor file = inadmissible file) ->
  forall fs : FS,
  fs !! path = None ->
  fold_left (item_fs processor) files fs !! path = None.
Proof.
  induction files as [|f files IH]; intros Hok fs Hnone; [assumption|].
  cbn [fold_left]. apply IH; [intros; apply Hok; now right|].
  pose proof (Hok f ltac:(now left)) as Hf.
  unfold item_fs, item_raises in *.
  destruct (inadmissible f); [assumption|]. cbn [orb] in Hf.
  destruct (item_outcome processor f); [|discriminate].
  destruct (decide (staged_path f = path)) as [->|Hne].
  - apply lookup_delete_eq.
  - now rewrite lookup_delete_ne.
Qed.

(** X17. When no recognition raises, a batch leaves none of its staged
    files behind, and whatever happens it touches no path other than those
    it stages admissible uploads at. *)
Theorem batch_process_staging `{Libs} (processor : option OMRProcessor)
    (files : list FileStorage) (fs : FS) :
  files <> [] ->
  exists report fs',
    batch_process processor (Some files) fs = (Ok (inr report, 200), fs') /\
    (forall path,
       (forall file, In file files -> inadmissible file = false ->
          path <> staged_path file) ->
       fs' !! path = fs !! path) /\
    ((forall file, In file files ->
        item_raises processor file = inadmissible file) ->
     forall file, In file files -> inadmissible file = false ->
       fs' !! staged_path file = None).
Proof.
  intros Hne. eexists _, _.
  split; [apply batch_process_some; assumption|].
  split; [intros path Hpath; now apply fold_item_fs_frame|].
  intros Hok. clear Hne. revert fs.
  induction files as [|f files IH]; intros fs file Hin Hadm; [destruct Hin|].
  cbn [fold_left]. destruct Hin as [->|Hin].
  - apply fold_item_fs_absent; [intros; apply Hok; now right|].
    pose proof (Hok file ltac:(now left)) as Hf.
    unfold item_fs, item_raises in *. rewrite Hadm in *. cbn [orb] in Hf.
    destruct (item_outcome processor file); [|discriminate].
    apply lookup_delete_eq.
  - apply IH; [intros; apply Hok; now right|assumption|assumption].
Qed.

Lemma batch_process_staging_witness :
  exists report fs',
    @batch_process plain_libs (Some answering_recognizer)
      (Some [sheet_upload]) ∅ = (Ok (inr report, 200), fs') /\
    fs' !! "elsewhere/model.pt" = (∅ : FS) !! "elsewhere/model.pt" /\
    fs' !! @staged_path plain_libs sheet_upload = None.
Proof.
  destruct (@batch_process_staging plain_libs (Some answering_recognizer)
              [sheet_upload] ∅ ltac:(discriminate))
    as (report & fs' & Hrun & Hframe & Hclean).
  exists report, fs'. split; [exact Hrun|]. split.
  - apply Hframe. intros file [<-|[]] _. discriminate.
  - apply Hclean.
    + intros file [<-|[]]. reflexivity.
    + now left.
    + reflexivity.
Defined.

Lemma filter_all {A} (f : A -> bool) (l : list A) :
  (forall x, In x l -> f x = true) -> List.filter f l = l.
Proof.
  induction l as [|x l IH]; intros Hall; [reflexivity|].
  cbn [List.filter]. rewrite Hall by now left.
  f_equal. apply IH. intros; apply Hall; now right.
Qed.

Lemma fold_item_fs_staged `{Libs} (files : list FileStorage) (path : string) :
  forall fs : FS,
  is_Some (fs !! path) ->
  is_Some (fold_left (item_fs None) files fs !! path).
Proof.
  induction files as [|f files IH]; intros fs Hsome; [assumption|].
  cbn [fold_left]. apply IH. unfold item_fs, item_outcome.
  destruct (inadmissible f); [assumption|].
  destruct (decide (staged_path f = path)) as [->|Hne].
  - rewrite lookup_insert_eq. eauto.
  - now rewrite lookup_insert_ne.
Qed.

(** X18. Without a loaded model a batch of any size is still answered 200:
    nothing is processed, every upload is counted as failed, and every
    admissible upload stays in the staging area. *)
Theorem batch_process_without_model `{Libs} (files : list FileStorage)
    (fs : FS) :
  files <> [] ->
  exists report fs',
    batch_process None (Some files) fs = (Ok (inr report, 200), fs') /\
    b_processed report = 0 /\
    b_failed report = Z.of_nat (length files) /\
    forall file, In file files -> inadmissible file = false ->
      is_Some (fs' !! staged_path file).
Proof.
  intros Hne.
  destruct (batch_process_counts None files fs Hne)
    as (report & fs' & Hrun & Hfailed & Hprocessed).
  exists report, fs'. split; [exact Hrun|].
  assert (Hall : forall f, In f files -> item_raises None f = true).
  { intros f _. unfold item_raises, item_outcome. apply orb_true_r. }
  rewrite Hfailed, Hprocessed, (filter_all _ _ Hall).
  split.
  - replace (List.filter (fun f => negb (item_raises None f)) files)
      with (@nil FileStorage); [reflexivity|].
    clear -Hall. induction files as [|f files IH]; [reflexivity|].
    cbn [List.filter]. rewrite Hall by now left. cbn [negb].
    apply IH. intros; apply Hall; now right.
  - split; [reflexivity|].
    rewrite batch_process_some in Hrun by assumption.
    injection Hrun as _ <-. clear Hne Hfailed Hprocessed Hall. revert fs.
    induction files as [|f files IH]; intros fs file Hin Hadm;
      [destruct Hin|].
    cbn [fold_left]. destruct Hin as [->|Hin].
    + apply fold_item_fs_staged. unfold item_fs, item_outcome.
      rewrite Hadm, lookup_insert_eq. eauto.
    + now apply IH.
Qed.

Lemma batch_process_without_model_witness :
  exists report fs',
    @batch_process plain_libs None (Some [sheet_upload]) ∅
    = (Ok (inr report, 200), fs') /\
    b_processed report = 0 /\ b_failed report = 1.
Proof.
  destruct (@batch_process_without_model plain_libs [sheet_upload] ∅
              ltac:(discriminate))
    as (report & fs' & Hrun & Hp & Hf & _).
  exists report, fs'. auto.
Defined.

(** X19. The entry of an upload whose recognition returned is the
    recognizer's result with two keys set: [status] becomes success and
    [filename] the sanitized name, whatever the result held under them;
    every other key, an [error] key included, is passed on unchanged. *)
Theorem batch_success_entry `{Libs} (processor : option OMRProcessor)
    (files : list FileStorage) (fs : FS) (i : nat) (file : FileStorage)
    (d : gmap string jval) :
  files !! i = Some file ->
  inadmissible file = false ->
  item_outcome processor file = Ok d ->
  exists report fs' r,
    batch_process processor (Some files) fs = (Ok (inr report, 200), fs') /\
    b_results report !! i = Some r /\
    r !! "status" = Some (JStr "success") /\
    r !! "filename" = Some (JStr (secure_filename (filename file))) /\
    forall k, k <> "status" -> k <> "filename" -> r !! k = d !! k.
Proof.
  intros Hi Hadm Hd.
  assert (Hne : files <> []) by (intros ->; discriminate).
  eexists _, _, (item_entry processor file).
  split; [apply batch_process_some; assumption|].
  cbn [b_results]. split.
  - change (map (item_entry processor) files)
      with (item_entry processor <$> files).
    now rewrite list_lookup_fmap, Hi.
  - unfold item_entry. rewrite Hadm, Hd.
    split; [apply lookup_insert_eq|]. split.
    + rewrite lookup_insert_ne by discriminate. apply lookup_insert_eq.
    + intros k Hs Hf. rewrite !lookup_insert_ne by congruence. reflexivity.
Qed.

Lemma batch_success_entry_witness :
  exists report fs' r,
    @batch_process plain_libs (Some reporting_recognizer)
      (Some [sheet_upload]) ∅ = (Ok (inr report, 200), fs') /\
    b_results report !! 0%nat = Some r /\
    r !! "status" = Some (JStr "success") /\
    r !! "error" = Some (JStr "No answers detected").
Proof.
  destruct (@batch_success_entry plain_libs (Some reporting_recognizer)
              [sheet_upload] ∅ 0%nat sheet_upload
              {["error" := JStr "No answers detected"]}
              eq_refl eq_refl eq_refl)
    as (report & fs' & r & Hrun & Hr & Hs & _ & Hk).
  exists report, fs', r. repeat split; try assumption.
  rewrite Hk by discriminate. reflexivity.
Defined.

(** X20. The batch handler answers 400 exactly when the request has no
    [files[]] part or an empty one, and then leaves the staging area as it
    was; otherwise it answers 200, model or no model. *)
Theorem batch_process_status `{Libs} (processor : option OMRProcessor)
    (files : option (list FileStorage)) (fs : FS) :
  exists body status fs',
    batch_process processor files fs = (Ok (body, status), fs') /\
    ((status = 400 /\ fs' = fs /\ (files = None \/ files = Some [])) \/
     (status = 200 /\ exists l, files = Some l /\ l <> [])).
Proof.
  destruct files as [[|f l]|].
  - eexists _, 400, fs. split; [reflexivity|]. left. auto.
  - eexists _, 200, _.
    split; [apply batch_process_some; discriminate|].
    right. split; [reflexivity|]. exists (f :: l). split; [reflexivity|].
    discriminate.
  - eexists _, 400, fs. split; [reflexivity|]. left. auto.
Qed.

(** ** Downloading the model *)

Lemma write_loop (destination : string) (chunks : list bytes) :
  forall (fs : FS) (content : bytes),
  fs !! destination = Some content ->
  for_each_M
    (fun chunk : bytes =>
       match chunk with
       | [] => ret tt
       | _ => file_write destination chunk
       end) chunks fs
  = (Ok tt, <[destination := content ++ concat chunks]> fs).
Proof.
  unfold bytes.
  induction chunks as [|chunk chunks IH]; intros fs content Hc.
  - cbn. now rewrite app_nil_r, insert_id.
  - cbn [for_each_M concat]. unfold bind at 1.
    destruct chunk as [|b chunk]; cbv beta iota.
    + unfold ret at 1. now rewrite (IH fs content Hc).
    + unfold file_write at 1. unfold bytes in *. rewrite Hc. cbn [default].
      rewrite (IH _ (content ++ b :: chunk)) by apply lookup_insert_eq.
      now rewrite insert_insert_eq, <- app_assoc.
Qed.

Lemma download_file_run `{Http} (url destination : string) (fs : FS) :
  download_file url destination fs =
  match requests_get url with
  | Ok response =>
      match hs_error response with
      | None => (Ok true, <[destination := stream_payload response]> fs)
      | Some _ => (Ok false, delete destination fs)
      end
  | Raise _ => (Ok false, delete destination fs)
  end.
Proof.
  unfold download_file, try_except, bind, lift_result, open_wb, write_chunks,
    bind, raise, ret.
  destruct (requests_get url) as [response|e].
  - rewrite (write_loop destination (hs_chunks response) _ [])
      by apply lookup_insert_eq.
    rewrite insert_insert_eq. cbn [app].
    destruct (hs_error response); [|reflexivity].
    now rewrite clean_up_ok, delete_insert_eq.
  - now rewrite clean_up_ok.
Qed.

(** X21. [download_file] always returns: with [True] the destination holds
    exactly the bytes of the stream, in order; with [False] (request failed
    or stream broken off) there is no file at the destination, a partial or
    an older one is removed; no other path is touched. *)
Theorem download_file_outcome `{Http} (url destination : string) (fs : FS) :
  exists ok fs',
    download_file url destination fs = (Ok ok, fs') /\
    (forall path, path <> destination -> fs' !! path = fs !! path) /\
    (if ok : bool
     then exists response,
            requests_get url = Ok response /\ hs_error response = None /\
            fs' !! destination = Some (stream_payload response)
     else fs' !! destination = None).
Proof.
  rewrite download_file_run.
  destruct (requests_get url) as [response|e].
  - destruct (hs_error response) eqn:He.
    + eexists false, _. split; [reflexivity|]. split.
      * intros path Hne. now rewrite lookup_delete_ne.
      * apply lookup_delete_eq.
    + eexists true, _. split; [reflexivity|]. split.
      * intros path Hne. now rewrite lookup_insert_ne.
      * exists response. rewrite lookup_insert_eq. auto.
  - eexists false, _. split; [reflexivity|]. split.
    + intros path Hne. now rewrite lookup_delete_ne.
    + apply lookup_delete_eq.
Qed.

(** X22. [main] exits with 0 or 1, and with 0 exactly when the model file
    exists afterwards; it touches no other path. *)
Theorem main_exit_code `{Http} (env_MODEL_URL env_MODEL_PATH : option string)
    (fs : FS) :
  exists code fs',
    main env_MODEL_URL env_MODEL_PATH fs = (Ok code, fs') /\
    (code = 0 \/ code = 1) /\
    (code = 0 <-> is_Some (fs' !! default "best.pt" env_MODEL_PATH)) /\
    (forall path, path <> default "best.pt" env_MODEL_PATH ->
       fs' !! path = fs !! path).
Proof.
  unfold main, bind at 1, os_path_exists.
  set (MODEL_PATH := default "best.pt" env_MODEL_PATH).
  destruct (fs !! MODEL_PATH) as [w|] eqn:Hw.
  - rewrite bool_decide_true by eauto. exists 0, fs. unfold ret.
    split; [reflexivity|]. split; [lia|]. split; [|auto].
    rewrite Hw. split; eauto.
  - rewrite bool_decide_false by (intros [? ?]; congruence).
    destruct (String.eqb (default "" env_MODEL_URL) "").
    + exists 1, fs. unfold ret. split; [reflexivity|]. split; [lia|].
      split; [|auto]. rewrite Hw. split; [lia|intros [? ?]; congruence].
    + unfold bind.
      destruct (download_file_outcome (default "" env_MODEL_URL)
                  MODEL_PATH fs) as (ok & fs' & -> & Hframe & Hdest).
      destruct ok.
      * destruct Hdest as (response & _ & _ & Hdest).
        exists 0, fs'. unfold ret. split; [reflexivity|]. split; [lia|].
        split; [|exact Hframe]. rewrite Hdest. split; eauto.
      * exists 1, fs'. unfold ret. split; [reflexivity|]. split; [lia|].
        split; [|exact Hframe]. rewrite Hdest.
        split; [lia|intros [? ?]; congruence].
Qed.

Lemma main_keeps_existing_model `{Http}
    (env_MODEL_URL env_MODEL_PATH : option string) (fs : FS) :
  is_Some (fs !! default "best.pt" env_MODEL_PATH) ->
  main env_MODEL_URL env_MODEL_PATH fs = (Ok 0, fs).
Proof.
  intros Hsome. unfold main, bind, os_path_exists.
  now rewrite bool_decide_true.
Qed.

(** X23. After a run of [main] that exited with 0, another run exits with 0
    again and changes nothing: it neither downloads a second time nor
    overwrites the model, whatever [MODEL_URL] and the network are then. *)
Theorem main_rerun_after_success (first second : Http)
    (url url' env_MODEL_PATH : option string) (fs fs' : FS) :
  @main first url env_MODEL_PATH fs = (Ok 0, fs') ->
  @main second url' env_MODEL_PATH fs' = (Ok 0, fs').
Proof.
  intros Hrun. apply main_keeps_existing_model.
  destruct (@main_exit_code first url env_MODEL_PATH fs)
    as (code & fs0 & Hrun0 & _ & Hiff & _).
  rewrite Hrun in Hrun0. injection Hrun0 as <- <-.
  now apply Hiff.
Qed.

Lemma main_rerun_after_success_witness :
  @main offline_http None None
    {["best.pt" := [Byte.x50; Byte.x4b; Byte.x03]]}
  = (Ok 0, {["best.pt" := [Byte.x50; Byte.x4b; Byte.x03]]}).
Proof.
  apply (main_rerun_after_success serving_http offline_http
           (Some "https://example.org/best.pt") None None ∅).
  vm_compute. reflexivity.
Defined.

(** ** From the download to the service *)

(** X24. When [main] exits with 1, the service that starts on the same
    files has no processor, and answers every single-upload request with
    503 "Model not loaded" without touching the staging area. *)
Theorem failed_download_degrades_service `{Http} `{Libs}
    (OMRProcessor_init : bytes -> result OMRProcessor)
    (env_MODEL_URL env_MODEL_PATH : option string) (fs fs' : FS) :
  main env_MODEL_URL env_MODEL_PATH fs = (Ok 1, fs') ->
  load_processor OMRProcessor_init (default "best.pt" env_MODEL_PATH) fs'
  = None /\
  forall (req : ProcessRequest) (staging : FS),
    process_omr
      (load_processor OMRProcessor_init (default "best.pt" env_MODEL_PATH)
         fs') req staging
    = (Ok model_not_loaded, staging).
Proof.
  intros Hmain.
  destruct (main_exit_code env_MODEL_URL env_MODEL_PATH fs)
    as (code & fs0 & Hrun & _ & Hiff & _).
  rewrite Hmain in Hrun. injection Hrun as <- <-.
  assert (Hnone : fs' !! default "best.pt" env_MODEL_PATH = None).
  { destruct (fs' !! default "best.pt" env_MODEL_PATH) eqn:E;
      [|reflexivity].
    assert (1 = 0) by (apply Hiff; eauto). lia. }
  assert (Hload : load_processor OMRProcessor_init
                    (default "best.pt" env_MODEL_PATH) fs' = None)
    by (unfold load_processor; now rewrite Hnone).
  split; [exact Hload|]. intros req staging. now rewrite Hload.
Qed.

Lemma failed_download_degrades_service_witness :
  load_processor (fun _ => Ok answering_recognizer) "best.pt" ∅ = None /\
  forall (req : ProcessRequest) (staging : FS),
    @process_omr plain_libs
      (load_processor (fun _ => Ok answering_recognizer) "best.pt" ∅)
      req staging
    = (Ok model_not_loaded, staging).
Proof.
  apply (@failed_download_degrades_service offline_http plain_libs
           (fun _ => Ok answering_recognizer)
           (Some "https://example.org/best.pt") None ∅ ∅).
  reflexivity.
Defined.

(** ** Health *)

(** X25. Whenever the single-upload handler answers 503, the health
    endpoint reports the service as degraded, with [model_loaded] false and
    status 200. *)
Theorem health_check_degraded `{Libs} (has_model : OMRProcessor -> bool)
    (MODEL_PATH : string) (processor : option OMRProcessor)
    (req : ProcessRequest) (fs fs' : FS) (body : gmap string jval) :
  process_omr processor req fs = (Ok (body, 503), fs') ->
  fst (health_check has_model MODEL_PATH processor) !! "status"
    = Some (JStr "degraded") /\
  fst (health_check has_model MODEL_PATH processor) !! "model_loaded"
    = Some (JVal (PBool false)) /\
  snd (health_check has_model MODEL_PATH processor) = 200.
Proof.
  intros Hrun.
  destruct (process_omr_status processor req fs)
    as (body0 & status & fs0 & Hrun0 & _ & Hiff).
  rewrite Hrun in Hrun0. injection Hrun0 as <- <- <-.
  rewrite (proj1 Hiff eq_refl).
  unfold health_check. cbn [fst snd].
  split; [apply lookup_insert_eq|]. split; [|reflexivity].
  rewrite lookup_insert_ne by discriminate. apply lookup_insert_eq.
Qed.

Lemma health_check_degraded_witness :
  fst (health_check (fun _ => true) "best.pt" None) !! "status"
    = Some (JStr "degraded") /\
  fst (health_check (fun _ => true) "best.pt" None) !! "model_loaded"
    = Some (JVal (PBool false)) /\
  snd (health_check (fun _ => true) "best.pt" None) = 200.
Proof.
  apply (@health_check_degraded plain_libs (fun _ => true) "best.pt" None
           ReqNoImage ∅ ∅ (fst model_not_loaded)).
  reflexivity.
Defined.

(** ** [/api/validate]: request checks *)

Example validate_handler_on_array_key :
  exists body,
    validate_answers_handler
      {| vr_is_json := true;
         vr_json := BObject [("detected_answers", FObject []);
                             ("answer_key", FArray [PInt 1; PInt 0])] |}
    = Ok (inr (inr body), 200) /\
    ix_score body = 0 /\ ix_total body = 2 /\ ix_grade body = "F".
Proof. eexists. split; [vm_compute; reflexivity|]. auto. Qed.

Example validate_handler_on_empty_string_key :
  validate_answers_handler
    {| vr_is_json := true;
       vr_json := BObject [("detected_answers", FScalar PNone);
                           ("answer_key", FScalar (PStr ""))] |}
  = Ok (inr (inl {| score := 0; total := 0; percentage := 0%Q; grade := "F";
                    comparison := [] |}), 200).
Proof. vm_compute. reflexivity. Qed.

Lemma for_each_ext {S A} (f g : S -> A -> result S) (xs : list A) (st : S) :
  (forall s x, f s x = g s x) -> for_each f xs st = for_each g xs st.
Proof.
  intros Hfg. revert st. induction xs as [|x xs IH]; intros st;
    [reflexivity|].
  cbn [for_each]. rewrite Hfg. destruct (g st x); cbn [rbind]; auto.
Qed.

Lemma score_fields_objects (d key : PyDict.t) :
  score_fields (FObject d) (FObject key) =
  let* report := validate_answers d key in Ok (inl report).
Proof.
  unfold score_fields, validate_answers, report_of.
  rewrite (for_each_ext (object_step (FObject d) key) (validate_step d key))
    by reflexivity.
  destruct (for_each _ _ _) as [st|e]; cbn [rbind]; [|reflexivity].
  destruct (score_percentage _ _); reflexivity.
Qed.

Lemma score_fields_no_get (detected : jfield) (q : string) (v : pyval)
    (key : PyDict.t) :
  (forall d, detected <> FObject d) ->
  exists e, score_fields detected (FObject ((q, v) :: key)) = Raise e.
Proof.
  intros Hnot. unfold score_fields, PyDict.keys.
  cbn [map fst for_each]. unfold object_step at 1.
  destruct detected as [d| |sv]; [now destruct (Hnot d)|..];
    cbn [field_get rbind]; eauto.
Qed.

(** X26. For a JSON request whose body is an object: when
    [detected_answers] or [answer_key] is missing the handler answers 400
    without scoring; when both are objects it answers 200 with the score
    report of the two maps; when the key is an object with at least one
    question and [detected_answers] is not an object it raises (an array,
    a string, a number and null have no [get]), which the framework answers
    with 500.  A body that is null, a boolean or a number makes it raise as
    well, and a request that is not JSON is answered 400. *)
Theorem validate_answers_handler_cases :
  (forall o,
     (body_lookup o "detected_answers" = None \/
      body_lookup o "answer_key" = None) ->
     validate_answers_handler {| vr_is_json := true; vr_json := BObject o |}
     = Ok (inl missing_fields_body, 400)) /\
  (forall o d k,
     body_lookup o "detected_answers" = Some (FObject d) ->
     body_lookup o "answer_key" = Some (FObject k) ->
     exists report,
       validate_answers d k = Ok report /\
       validate_answers_handler {| vr_is_json := true; vr_json := BObject o |}
       = Ok (inr (inl report), 200)) /\
  (forall o detected q v k,
     body_lookup o "detected_answers" = Some detected ->
     (forall d, detected <> FObject d) ->
     body_lookup o "answer_key" = Some (FObject ((q, v) :: k)) ->
     exists e,
       validate_answers_handler {| vr_is_json := true; vr_json := BObject o |}
       = Raise e) /\
  (forall v,
     (forall s, v <> PStr s) ->
     exists e,
       validate_answers_handler {| vr_is_json := true; vr_json := BScalar v |}
       = Raise e) /\
  (forall data,
     validate_answers_handler {| vr_is_json := false; vr_json := data |}
     = Ok (inl {["error" := JStr "Request must be JSON"]}, 400)).
Proof.
  unfold validate_answers_handler. cbn [vr_is_json vr_json negb].
  split; [|split; [|split; [|split]]].
  - intros o [Hd|Hk]; unfold body_contains.
    + now rewrite Hd.
    + destruct (body_lookup o "detected_answers"); cbn [rbind negb];
        now rewrite ?Hk.
  - intros o d k Hd Hk. unfold body_contains, body_subscript.
    rewrite Hd, Hk. cbn [rbind negb]. rewrite score_fields_objects.
    destruct (validate_answers_total d k) as [r Hr]. rewrite Hr.
    cbn [rbind]. eauto.
  - intros o detected q v k Hd Hnot Hk. unfold body_contains, body_subscript.
    rewrite Hd, Hk. cbn [rbind negb].
    destruct (score_fields_no_get detected q v k Hnot) as [e ->].
    cbn [rbind]. eauto.
  - intros v Hv. unfold body_contains.
    destruct v; cbn [rbind]; eauto. now destruct (Hv s).
  - reflexivity.
Qed.
